(** * hello-webllm: the engine lifecycle, the replay of a conversation and
      the chat turn of [src/App.tsx]

    [App] is a React function component.  Every call of [App] (a render)
    binds the current values of its [useState] cells to constants and
    creates fresh handler closures ([prepareEngine], [clearStorage],
    [processMsg], [sendMsg]) over these constants.  A handler that is
    suspended at an [await] keeps the constants of the render that created
    it, whatever [setEngine], [setMessages], ... have stored since.

    The embedding follows that shape:
    - [Render] holds the constants of one render, [World] the React cells and
      the two browser storages;
    - a handler is a computation in the monad [M] (state over [World], with
      the calls made to the collaborators written to a list), cut at each
      [await] into the part that runs before the suspension and the part that
      runs when the awaited promise settles;
    - [step] runs one browser event (a click, a settled promise, ...) to the
      next render, and [run] a list of events. *)

From stdpp Require Import gmap strings list.

Open Scope string_scope.
Open Scope list_scope.

(** ** Data model *)

(** [Message["role"]] *)
Inductive Role := assistant | user | system | tool.

#[global] Instance Role_eq_dec : EqDecision Role.
Proof. solve_decision. Defined.

(** [type Message] *)
Record Message := {
  id : string;
  role : Role;
  content : string;
  sentAt : string
}.

#[global] Instance Message_eq_dec : EqDecision Message.
Proof. solve_decision. Defined.

(** [webllm.ChatCompletionMessageParam]: one entry of a completion request. *)
Record ChatCompletionMessageParam := {
  param_role : Role;
  param_content : string
}.

(** [reply.choices[i].message]; [content] may be [null]. *)
Record ChatCompletionMessage := {
  choice_role : Role;
  choice_content : option string
}.

(** The loaded engine is opaque: a handle names the instance. *)
Definition MLCEngine := nat.

Definition modelId := "TinyLlama-1.1B-Chat-v0.4-q4f16_1-MLC".
Definition loadEngineProgressKey := "hello-webllm.locals.loading-engine".
Definition messagesRepoKey := "hello-webllm.locals.messages-repo".

(** The constants bound by the [useState] calls of one render of [App]. *)
Record Render := {
  engine : option MLCEngine;
  engineLoadingProgress : string;
  msgInput : string;
  messages : list Message;
  processingMsg : bool
}.

(** An item of [localStorage].  The browser keeps a text; the model keeps
    what [JSON.parse] makes of it: [Stringified l] is a text that parses to
    the array [l] (as [JSON.stringify(l)] does), [Unparsable] is a text on
    which [JSON.parse] throws.  The cast [as Message[]] of the source takes
    every text that parses for the text of a [Message] array. *)
Inductive Item :=
| Unparsable
| Stringified (l : list Message).

#[global] Instance Item_eq_dec : EqDecision Item.
Proof. solve_decision. Defined.

Definition JSON_stringify (l : list Message) : Item := Stringified l.

(** [JSON.parse(msgs || "[]")]; [None] when it throws. *)
Definition JSON_parse_or_empty (msgs : option Item) : option (list Message) :=
  match msgs with
  | None => Some []
  | Some Unparsable => None
  | Some (Stringified l) => Some l
  end.

(** The React cells, and the storages of the browser.  [messagesChanged]
    records that [setMessages] stored a new array since the last render: the
    dependency list [[messages]] of the persistence effect. *)
Record World := {
  cells : Render;
  messagesChanged : bool;
  localStorage : gmap string Item;
  sessionStorage : gmap string string
}.

(** What a settled promise delivers. *)
Inductive Settled (A : Type) :=
| Fulfilled (a : A)
| Rejected (err : string).
Arguments Fulfilled {A} a.
Arguments Rejected {A} err.

(** The calls that leave [App]: to the model runtime, to the console, to the
    storages, to the DOM. *)
Inductive Call :=
| CreateMLCEngine (model : string)
| deleteModelAllInfoInCache (model : string)
| chat_completions_create (e : MLCEngine) (prompt : list ChatCompletionMessageParam)
| console_error (msg : string)
| setTimeout_scroll (delay : nat)
| preventDefault
| localStorage_getItem (key : string)
| localStorage_setItem (key : string) (v : Item)
| localStorage_removeItem (key : string)
| sessionStorage_getItem (key : string)
| sessionStorage_setItem (key : string) (v : string)
| sessionStorage_removeItem (key : string).

#[global] Instance ChatCompletionMessageParam_eq_dec :
  EqDecision ChatCompletionMessageParam.
Proof. solve_decision. Defined.

#[global] Instance Call_eq_dec : EqDecision Call.
Proof. solve_decision. Defined.

(** ** The monad of handlers *)

Definition M (A : Type) : Type := World -> A * World * list Call.

Definition ret {A} (a : A) : M A := fun w => (a, w, []).

Definition result {A} (r : A * World * list Call) : A := r.1.1.
Definition after {A} (r : A * World * list Call) : World := r.1.2.
Definition calls {A} (r : A * World * list Call) : list Call := r.2.

Definition bind {A B} (c : M A) (k : A -> M B) : M B :=
  fun w =>
    let '(a, w1, t1) := c w in
    let '(b, w2, t2) := k a w1 in
    (b, w2, t1 ++ t2).

Notation "x <- c ;; k" := (bind c (fun x => k))
  (at level 100, c at next level, right associativity).
Notation "c ;; k" := (bind c (fun _ => k))
  (at level 100, right associativity).

Definition call (c : Call) : M unit := fun w => (tt, w, [c]).

(** *** The setters of the [useState] cells *)

Definition with_cells (f : Render -> Render) : M unit :=
  fun w =>
    (tt, {| cells := f (cells w); messagesChanged := messagesChanged w;
            localStorage := localStorage w;
            sessionStorage := sessionStorage w |}, []).

Definition setEngine (e : option MLCEngine) : M unit :=
  with_cells (fun r =>
    {| engine := e; engineLoadingProgress := engineLoadingProgress r;
       msgInput := msgInput r; messages := messages r;
       processingMsg := processingMsg r |}).

Definition setEngineLoadingProgress (s : string) : M unit :=
  with_cells (fun r =>
    {| engine := engine r; engineLoadingProgress := s;
       msgInput := msgInput r; messages := messages r;
       processingMsg := processingMsg r |}).

Definition setMsgInput (s : string) : M unit :=
  with_cells (fun r =>
    {| engine := engine r; engineLoadingProgress := engineLoadingProgress r;
       msgInput := s; messages := messages r;
       processingMsg := processingMsg r |}).

Definition setProcessingMsg (b : bool) : M unit :=
  with_cells (fun r =>
    {| engine := engine r; engineLoadingProgress := engineLoadingProgress r;
       msgInput := msgInput r; messages := messages r;
       processingMsg := b |}).

(** [setMessages((p) => f(p))]: the update reads the cell, not a render. *)
Definition setMessages_with (f : list Message -> list Message) : M unit :=
  fun w =>
    let r := cells w in
    (tt, {| cells := {| engine := engine r;
                        engineLoadingProgress := engineLoadingProgress r;
                        msgInput := msgInput r; messages := f (messages r);
                        processingMsg := processingMsg r |};
            messagesChanged := true;
            localStorage := localStorage w;
            sessionStorage := sessionStorage w |}, []).

(** [setMessages(l)] *)
Definition setMessages (l : list Message) : M unit :=
  setMessages_with (fun _ => l).

(** *** The storages *)

Definition localStorage_get (key : string) : M (option Item) :=
  fun w => (localStorage w !! key, w, [localStorage_getItem key]).

Definition localStorage_set (key : string) (v : Item) : M unit :=
  fun w =>
    (tt, {| cells := cells w; messagesChanged := messagesChanged w;
            localStorage := <[key := v]> (localStorage w);
            sessionStorage := sessionStorage w |},
     [localStorage_setItem key v]).

Definition localStorage_remove (key : string) : M unit :=
  fun w =>
    (tt, {| cells := cells w; messagesChanged := messagesChanged w;
            localStorage := delete key (localStorage w);
            sessionStorage := sessionStorage w |},
     [localStorage_removeItem key]).

Definition sessionStorage_get (key : string) : M (option string) :=
  fun w => (sessionStorage w !! key, w, [sessionStorage_getItem key]).

Definition sessionStorage_set (key : string) (v : string) : M unit :=
  fun w =>
    (tt, {| cells := cells w; messagesChanged := messagesChanged w;
            localStorage := localStorage w;
            sessionStorage := <[key := v]> (sessionStorage w) |},
     [sessionStorage_setItem key v]).

Definition sessionStorage_remove (key : string) : M unit :=
  fun w =>
    (tt, {| cells := cells w; messagesChanged := messagesChanged w;
            localStorage := localStorage w;
            sessionStorage := delete key (sessionStorage w) |},
     [sessionStorage_removeItem key]).

(** ** The handlers of [App] *)

(** Where a handler stands while it waits for a promise.  [prepareEngine]
    keeps the render it was created in: its continuation calls the
    [processMsg] of that render. *)
Inductive Task :=
| prepareEngine_awaiting (env : Render)
| clearStorage_awaiting
| processMsg_awaiting.

Record Choice := { message : ChatCompletionMessage }.
(** [reply] of [engine.chat.completions.create], for the replies that carry
    a first choice: [first_choice] is [reply.choices[0]], [other_choices]
    the rest of the array.  Only these replies are taken here.  On a reply
    with no choice, [choice] is [undefined] and [choice.message] throws
    where it is read, in the updater that React runs for the next render,
    outside the [try] of [processMsg]: nothing is caught or logged there and
    React unmounts [App].  No event below carries such a reply. *)
Record ChatCompletion := {
  first_choice : Choice;
  other_choices : list Choice
}.

(** [scrollDown(delay = 100)]: the scroll itself runs in a timer. *)
Definition scrollDown : M unit := call (setTimeout_scroll 100).

(** The [useEffect] on [[messages]]. *)
Definition persistEffect (env : Render) : M unit :=
  if bool_decide (length (messages env) < 1) then ret tt
  else localStorage_set messagesRepoKey (JSON_stringify (messages env)).

Definition system_instruction : ChatCompletionMessageParam :=
  {| param_role := system; param_content := "You are a helpful AI assistant." |}.

Definition prompt_of (msgList : list Message) : list ChatCompletionMessageParam :=
  system_instruction
    :: map (fun m => {| param_role := role m; param_content := content m |}) msgList.

(** [s || d] on a string that may be [null]. *)
Definition or_else (s : option string) (d : string) : string :=
  match s with
  | Some s => if decide (s = "") then d else s
  | None => d
  end.

(** [processMsg], up to [await engine.chat.completions.create]. *)
Definition processMsg (env : Render) (msgList : list Message) : M (option Task) :=
  match engine env with
  | None => ret None
  | Some e =>
      setProcessingMsg true ;;
      scrollDown ;;
      call (chat_completions_create e (prompt_of msgList)) ;;
      ret (Some processMsg_awaiting)
  end.

(** [processMsg], from the settled completion on.  [uuid] and [now] are what
    [v4()] and [new Date().toISOString()] return in the updater. *)
Definition processMsg_settled (reply : Settled ChatCompletion) (uuid now : string)
  : M unit :=
  match reply with
  | Fulfilled reply =>
      let choice := first_choice reply in
      setMessages_with (fun p =>
        p ++ [ {| id := uuid;
                  content := or_else (choice_content (message choice))
                                     "Unable to prduce response!";
                  role := choice_role (message choice);
                  sentAt := now |} ])
  | Rejected err => call (console_error ("unable to process message: " +:+ err))
  end ;;
  setProcessingMsg false ;;
  scrollDown.

(** [prepareEngine], up to [await webllm.CreateMLCEngine]. *)
Definition prepareEngine (env : Render) : M (option Task) :=
  loadingStatus <- sessionStorage_get loadEngineProgressKey ;;
  if decide (loadingStatus = Some "true") then ret None
  else
    sessionStorage_set loadEngineProgressKey "true" ;;
    call (CreateMLCEngine modelId) ;;
    ret (Some (prepareEngine_awaiting env)).

(** [initProgressCallback] *)
Definition initProgressCallback (text : string) : M unit :=
  setEngineLoadingProgress text.

(** [prepareEngine], from the settled load on: the end of the [try], the
    [catch], and the [finally].  [processMsg] is the one of [env]. *)
Definition prepareEngine_settled (env : Render) (e : Settled MLCEngine)
  : M (option Task) :=
  match e with
  | Fulfilled e => setEngine (Some e) ;; setEngineLoadingProgress ""
  | Rejected err =>
      call (console_error ("unable to fully load the model: " +:+ err))
  end ;;
  sessionStorage_remove loadEngineProgressKey ;;
  msgs <- localStorage_get messagesRepoKey ;;
  t <- match JSON_parse_or_empty msgs with
       | Some parsedMsgs =>
           setMessages parsedMsgs ;;
           if bool_decide (0 < length parsedMsgs)
              && bool_decide (role <$> last parsedMsgs = Some user)
           then processMsg env parsedMsgs
           else ret None
       | None => ret None
       end ;;
  scrollDown ;;
  ret t.

(** [clearStorage], up to [await webllm.deleteModelAllInfoInCache]. *)
Definition clearStorage : M Task :=
  call (deleteModelAllInfoInCache modelId) ;;
  ret clearStorage_awaiting.

(** [clearStorage], from the settled purge on; a rejected purge rejects
    [clearStorage] before any of its statements. *)
Definition clearStorage_settled (r : Settled unit) : M unit :=
  match r with
  | Fulfilled _ =>
      localStorage_remove messagesRepoKey ;;
      sessionStorage_remove loadEngineProgressKey ;;
      setEngineLoadingProgress "" ;;
      setMessages [] ;;
      setProcessingMsg false ;;
      setMsgInput "" ;;
      setEngine None
  | Rejected _ => ret tt
  end.

(** [sendMsg], up to the [await] inside [processMsg]; nothing follows
    [await processMsg(newMsgList)]. *)
Definition sendMsg (env : Render) (uuid now : string) : M (option Task) :=
  call preventDefault ;;
  match engine env with
  | None => ret None
  | Some _ =>
      let newMsg :=
        {| id := uuid; role := user; content := msgInput env; sentAt := now |} in
      setMsgInput "" ;;
      let newMsgList := messages env ++ [newMsg] in
      setMessages newMsgList ;;
      processMsg env newMsgList
  end.

(** [onChange] of the input. *)
Definition onChange (value : string) : M unit := setMsgInput value.

(** ** Renders and events *)

Definition messages_rendered : M unit :=
  fun w =>
    (tt, {| cells := cells w; messagesChanged := false;
            localStorage := localStorage w;
            sessionStorage := sessionStorage w |}, []).

(** React batches the updates of the statements that run between two
    suspensions, calls [App] again once they have run, and then runs the
    effect when [messages] is a new array. *)
Definition commit : M unit :=
  fun w =>
    if messagesChanged w
    then (messages_rendered ;; persistEffect (cells w)) w
    else ret tt w.

(** The browser: the world, the suspended handlers, and the calls made so
    far. *)
Record Sys := {
  world : World;
  pending : list Task;
  history : list Call
}.

(** What happens in the browser.  A click or a submission runs the handler
    of the render on screen; a promise that settles resumes the handler that
    waits at position [i] of [pending] (the event is void when no such
    handler waits there).  [uuid] and [now] are the results of [v4()] and of
    [new Date().toISOString()] in the statements the event runs.  A
    completion settles rejected, or fulfilled with a reply that carries a
    first choice. *)
Inductive Event :=
| click_Start
| progress_report (i : nat) (text : string)
| load_settles (i : nat) (e : Settled MLCEngine)
| click_Delete_data
| purge_settles (i : nat) (r : Settled unit)
| submit_form (uuid now : string)
| completion_settles (i : nat) (reply : Settled ChatCompletion) (uuid now : string)
| input_changes (value : string).

(** Runs the statements [c] of an event and the render that follows;
    [rest] are the handlers that stay suspended, [spawned] those that [c]
    suspends. *)
Definition exec {A} (c : M A) (spawned : A -> list Task) (rest : list Task)
    (s : Sys) : Sys :=
  let r := (a <- c ;; commit ;; ret a) (world s) in
  {| world := after r;
     pending := rest ++ spawned (result r);
     history := history s ++ calls r |}.

Definition step (s : Sys) (ev : Event) : Sys :=
  match ev with
  | click_Start =>
      exec (prepareEngine (cells (world s))) option_list (pending s) s
  | progress_report i text =>
      match pending s !! i with
      | Some (prepareEngine_awaiting _) =>
          exec (initProgressCallback text) (fun _ => []) (pending s) s
      | _ => s
      end
  | load_settles i e =>
      match pending s !! i with
      | Some (prepareEngine_awaiting env) =>
          exec (prepareEngine_settled env e) option_list (delete i (pending s)) s
      | _ => s
      end
  | click_Delete_data =>
      exec clearStorage (fun t => [t]) (pending s) s
  | purge_settles i r =>
      match pending s !! i with
      | Some clearStorage_awaiting =>
          exec (clearStorage_settled r) (fun _ => []) (delete i (pending s)) s
      | _ => s
      end
  | submit_form uuid now =>
      exec (sendMsg (cells (world s)) uuid now) option_list (pending s) s
  | completion_settles i reply uuid now =>
      match pending s !! i with
      | Some processMsg_awaiting =>
          exec (processMsg_settled reply uuid now) (fun _ => [])
               (delete i (pending s)) s
      | _ => s
      end
  | input_changes value =>
      exec (onChange value) (fun _ => []) (pending s) s
  end.

Definition run (s : Sys) (evs : list Event) : Sys := foldl step s evs.

(** What the JSX of a render puts on screen: the control behind an event is
    there and enabled.  A promise can settle when its handler waits. *)
Definition on_screen (s : Sys) (ev : Event) : bool :=
  let env := cells (world s) in
  match ev with
  | click_Start =>
      bool_decide (engine env = None)
      && bool_decide (engineLoadingProgress env = "")
  | click_Delete_data => bool_decide (engine env ≠ None)
  | submit_form _ _ =>
      bool_decide (engine env ≠ None) && negb (processingMsg env)
      && bool_decide (msgInput env ≠ "")
  | input_changes _ =>
      bool_decide (engine env ≠ None) && negb (processingMsg env)
  | progress_report i _ | load_settles i _ =>
      match pending s !! i with
      | Some (prepareEngine_awaiting _) => true
      | _ => false
      end
  | purge_settles i _ =>
      match pending s !! i with
      | Some clearStorage_awaiting => true
      | _ => false
      end
  | completion_settles i _ _ _ =>
      match pending s !! i with
      | Some processMsg_awaiting => true
      | _ => false
      end
  end.

Fixpoint realizable (s : Sys) (evs : list Event) : bool :=
  match evs with
  | [] => true
  | ev :: evs => on_screen s ev && realizable (step s ev) evs
  end.

Definition initial_cells : Render :=
  {| engine := None; engineLoadingProgress := ""; msgInput := "";
     messages := []; processingMsg := false |}.

(** Loading the page: the module removes the guard, [App] renders for the
    first time and its effect runs. *)
Definition page_load (ls : gmap string Item) (ss : gmap string string) : Sys :=
  let w := {| cells := initial_cells; messagesChanged := false;
              localStorage := ls; sessionStorage := ss |} in
  let r := (sessionStorage_remove loadEngineProgressKey ;;
            persistEffect initial_cells) w in
  {| world := after r; pending := []; history := calls r |}.

(** ** Notions of the specification, read off the state *)

(** The load guard: the item of [sessionStorage] that [prepareEngine] tests. *)
Definition guard_set (w : World) : bool :=
  bool_decide (sessionStorage w !! loadEngineProgressKey = Some "true").

(** The three states of the lifecycle: [engine] is the handle, and a load is
    presumed in flight while the guard is set. *)
Inductive Lifecycle := Unloaded | Loading | Ready.

Definition lifecycle (w : World) : Lifecycle :=
  match engine (cells w) with
  | Some _ => Ready
  | None => if guard_set w then Loading else Unloaded
  end.

(** What a read of the store gives: lines 71 and 73 of [App.tsx]. *)
Definition load (w : World) : option (list Message) :=
  JSON_parse_or_empty (localStorage w !! messagesRepoKey).

Definition is_load (t : Task) : bool :=
  match t with
  | prepareEngine_awaiting _ => true
  | _ => false
  end.

Definition loads_in_flight (s : Sys) : nat := length (filter is_load (pending s)).

Definition is_load_request (c : Call) : bool :=
  match c with
  | CreateMLCEngine _ => true
  | _ => false
  end.

Definition is_completion_request (c : Call) : bool :=
  match c with
  | chat_completions_create _ _ => true
  | _ => false
  end.

(** [reset()] that returns: the purge is fulfilled, and [App] renders. *)
Definition reset : M unit :=
  clearStorage ;; clearStorage_settled (Fulfilled tt) ;; commit.

(** Saving a log: [setMessages(l)] and the render that follows. *)
Definition save (l : list Message) : M unit := setMessages l ;; commit.

(** ** Sample data *)

Definition hi : Message :=
  {| id := "0b7e"; role := user; content := "hi"; sentAt := "2024-05-01T10:00:00.000Z" |}.

Definition hello : Message :=
  {| id := "51c2"; role := assistant; content := "Hello!";
     sentAt := "2024-05-01T10:00:02.000Z" |}.

Definition ready_cells : Render :=
  {| engine := Some 1; engineLoadingProgress := ""; msgInput := "how are you?";
     messages := [hi; hello]; processingMsg := false |}.

Definition ready_world : World :=
  {| cells := ready_cells; messagesChanged := false;
     localStorage := {[ messagesRepoKey := Stringified [hi; hello] ]};
     sessionStorage := ∅ |}.

Definition fresh_world : World :=
  {| cells := initial_cells; messagesChanged := false;
     localStorage := {[ messagesRepoKey := Stringified [hi] ]};
     sessionStorage := ∅ |}.

(** The driver starts with the read of the persisted log. *)
Definition replay_reads (t : list Call) : nat :=
  length (filter (λ c, bool_decide (c = localStorage_getItem messagesRepoKey)) t).

(** The page is loaded with [hi] in the store, Start is clicked and the load
    is rejected. *)
Definition failed_load : Sys :=
  run (page_load {[ messagesRepoKey := Stringified [hi] ]} ∅)
      [click_Start; load_settles 0 (Rejected "out of memory")].

(** The page is loaded with a log in the store, Start is clicked, and the
    load is fulfilled with the engine [e]. *)
Definition start_resolved (ls : gmap string Item) (ss : gmap string string)
    (l : list Message) (e : MLCEngine) : Sys :=
  run (page_load (<[messagesRepoKey := Stringified l]> ls) ss)
      [click_Start; load_settles 0 (Fulfilled e)].

(** The events of the Turn Processor and of the form in front of it. *)
Definition turn_event (ev : Event) : bool :=
  match ev with
  | submit_form _ _ | completion_settles _ _ _ _ | input_changes _ => true
  | _ => false
  end.

(** The event ends a [reset()]: the purge of a waiting [clearStorage] is
    fulfilled. *)
Definition completes_reset (s : Sys) (ev : Event) : bool :=
  match ev with
  | purge_settles i (Fulfilled _) =>
      match pending s !! i with
      | Some clearStorage_awaiting => true
      | _ => false
      end
  | _ => false
  end.

(** No [reset()] ends while a load is in flight. *)
Fixpoint no_reset_during_load (s : Sys) (evs : list Event) : bool :=
  match evs with
  | [] => true
  | ev :: evs =>
      negb (completes_reset s ev && bool_decide (0 < loads_in_flight s))
      && no_reset_during_load (step s ev) evs
  end.

(** What the persistence effect maintains: the renders are up to date and a
    published log that is not empty is the log in the store. *)
Definition persisted (s : Sys) : Prop :=
  messagesChanged (world s) = false
  ∧ (messages (cells (world s)) ≠ [] →
     localStorage (world s) !! messagesRepoKey
     = Some (Stringified (messages (cells (world s))))).

(** No [reset()] ends. *)
Fixpoint no_reset (s : Sys) (evs : list Event) : bool :=
  match evs with
  | [] => true
  | ev :: evs => negb (completes_reset s ev) && no_reset (step s ev) evs
  end.

(** What the guard promises: the renders are up to date, at most one load
    is in flight, and the guard is set while one is. *)
Definition guarded (s : Sys) : Prop :=
  messagesChanged (world s) = false
  ∧ (loads_in_flight s ≤ 1)%nat
  ∧ (loads_in_flight s = 1%nat → guard_set (world s) = true).

(** Delete data is clicked twice on the chat screen; the first reset ends
    and Start is clicked; the second reset ends while that load is in
    flight. *)
Definition reset_race : list Event :=
  [click_Start; load_settles 0 (Fulfilled 1);
   click_Delete_data; click_Delete_data;
   purge_settles 0 (Fulfilled tt); click_Start;
   purge_settles 0 (Fulfilled tt)].

(** Start is clicked twice before the first progress report comes. *)
Definition impatient_clicks : list Event :=
  [click_Start; click_Start; progress_report 0 "Loading model from cache[1/24]"].

(** ** Further notions: the turns in flight, the items left alone, the
       calls to the runtime *)

Definition is_completion (t : Task) : bool :=
  match t with
  | processMsg_awaiting => true
  | _ => false
  end.

Definition completions_in_flight (s : Sys) : nat :=
  length (filter is_completion (pending s)).

(** The loads in flight were started from a screen that shows Start: their
    renders hold no engine. *)
Definition started_without_engine (t : Task) : Prop :=
  match t with
  | prepareEngine_awaiting env => engine env = None
  | _ => True
  end.

(** The busy flag tells whether a turn is in flight, there is at most one,
    and the renders are up to date. *)
Definition one_turn (s : Sys) : Prop :=
  messagesChanged (world s) = false
  ∧ completions_in_flight s = (if processingMsg (cells (world s)) then 1 else 0)%nat
  ∧ Forall started_without_engine (pending s).

(** The items of the two storages under the keys that [App] does not use
    are the same in [w] and [w']. *)
Definition other_items (w w' : World) : Prop :=
  (∀ k, k ≠ messagesRepoKey → localStorage w' !! k = localStorage w !! k)
  ∧ (∀ k, k ≠ loadEngineProgressKey →
       sessionStorage w' !! k = sessionStorage w !! k).

(** A call to the model runtime names the model of [App], and a completion
    request starts with the system instruction. *)
Definition runtime_call_ok (c : Call) : Prop :=
  match c with
  | CreateMLCEngine m | deleteModelAllInfoInCache m => m = modelId
  | chat_completions_create _ prompt => head prompt = Some system_instruction
  | _ => True
  end.

(** The message that [sendMsg] makes of the input. *)
Definition user_message (env : Render) (uuid now : string) : Message :=
  {| id := uuid; role := user; content := msgInput env; sentAt := now |}.

(** The message that [processMsg] makes of a choice. *)
Definition reply_message (choice : Choice) (uuid now : string) : Message :=
  {| id := uuid;
     content := or_else (choice_content (message choice))
                        "Unable to prduce response!";
     role := choice_role (message choice);
     sentAt := now |}.

(** *** The size of the model in the header of the chat screen *)

Section Header.

(** JavaScript numbers and [Number.prototype.toString]. *)
Variable Number : Type.
Variable Number_toString : Number → string.

(** An entry of [webllm.prebuiltAppConfig.model_list]. *)
Record ModelRecord := {
  model_id : string;
  vram_required_MB : option Number
}.

(** [model_list.find((m) => m.model_id === modelId)] *)
Definition find_model (model_list : list ModelRecord) : option ModelRecord :=
  List.find (λ m, bool_decide (model_id m = modelId)) model_list.

(** [x + "MB"] where [x] may be [undefined]. *)
Definition plus_string (x : option string) (s : string) : string :=
  match x with
  | Some x => x +:+ s
  | None => "undefined" +:+ s
  end.

(** Lines 194 to 196:
    [find(...)?.vram_required_MB?.toString() + "MB" || "not sure"]. *)
Definition header_size (model_list : list ModelRecord) : string :=
  or_else
    (Some (plus_string
             (Number_toString <$> (find_model model_list ≫= vram_required_MB))
             "MB"))
    "not sure".

End Header.

Arguments model_id {Number} _.
Arguments vram_required_MB {Number} _.

(** *** The earlier [App] (the unnamed source file)

    It has no Start button and no [clearStorage]: the load starts in an
    effect without dependencies, when [App] mounts.  Its [processMsg],
    [sendMsg], [scrollDown] and persistence effect are those above. *)

Module Legacy.

Definition modelId := "TinyLlama-1.1B-Chat-v0.4-q4f32_1-MLC-1k".

Definition initial_cells : Render :=
  {| engine := None; engineLoadingProgress := "Preparing 0%"; msgInput := "";
     messages := []; processingMsg := false |}.

(** The effect, up to the promise of [webllm.CreateMLCEngine]. *)
Definition mountEffect (env : Render) : M (option Task) :=
  loadingStatus <- sessionStorage_get loadEngineProgressKey ;;
  if decide (loadingStatus = Some "true") then ret None
  else
    sessionStorage_set loadEngineProgressKey "true" ;;
    call (CreateMLCEngine modelId) ;;
    ret (Some (prepareEngine_awaiting env)).

(** The [then], the [catch] and the [finally] of that promise. *)
Definition mountEffect_settled (env : Render) (e : Settled MLCEngine)
  : M (option Task) :=
  match e with
  | Fulfilled e => setEngine (Some e)
  | Rejected err =>
      call (console_error ("unable to fully load the model: " +:+ err))
  end ;;
  sessionStorage_remove loadEngineProgressKey ;;
  msgs <- localStorage_get messagesRepoKey ;;
  t <- match JSON_parse_or_empty msgs with
       | Some parsedMsgs =>
           setMessages parsedMsgs ;;
           if bool_decide (0 < length parsedMsgs)
              && bool_decide (role <$> last parsedMsgs = Some user)
           then processMsg env parsedMsgs
           else ret None
       | None => ret None
       end ;;
  scrollDown ;;
  ret t.

(** Loading the page: the module removes the guard, [App] renders, and its
    two effects run in the order of the source. *)
Definition page_load (ls : gmap string Item) (ss : gmap string string) : Sys :=
  let w := {| cells := initial_cells; messagesChanged := false;
              localStorage := ls; sessionStorage := ss |} in
  let r := (sessionStorage_remove loadEngineProgressKey ;;
            t <- mountEffect initial_cells ;;
            persistEffect initial_cells ;;
            ret t) w in
  {| world := after r; pending := option_list (result r); history := calls r |}.

End Legacy.

(** ** Proof tools *)

(** Runs the statements of a handler on a world given by its fields; the
    operations on the storages stay as they are written. *)
Ltac eval_M :=
  cbv beta iota zeta delta
    [save reset commit messages_rendered scrollDown
     initProgressCallback onChange setMessages setMessages_with setEngine
     setEngineLoadingProgress setMsgInput setProcessingMsg with_cells
     localStorage_get localStorage_set localStorage_remove
     sessionStorage_get sessionStorage_set sessionStorage_remove
     clearStorage clearStorage_settled processMsg
     bind ret call result after calls fst snd
     cells messagesChanged localStorage sessionStorage
     engine engineLoadingProgress msgInput messages processingMsg
     initial_cells];
  cbn [app].

Ltac fields w := destruct w as [[? ? ? ? ?] ? ? ?].

(** Reduces the projections of records that are written out. *)
Ltac proj :=
  cbn [world pending history cells messagesChanged localStorage sessionStorage
       engine engineLoadingProgress msgInput messages processingMsg
       result after calls fst snd app].

(** Splits the continuation of [prepareEngine] along its branches: the load
    fulfilled or rejected, the text parsed or not, the last entry from the
    user or not, an engine in the render or none. *)
Ltac settled_cases env e w :=
  unfold prepareEngine_settled, load, guard_set; fields w;
  destruct env as [[?e0|] ? ? ? ?];
  destruct e as [?e|?err]; eval_M;
  (destruct (JSON_parse_or_empty _) as [?l|]; eval_M);
  try (destruct (_ && _); eval_M);
  try done.

(** ** The Local Conversation Store *)

Lemma persistEffect_empty env w :
  messages env = [] → persistEffect env w = (tt, w, []).
Proof. intros H. unfold persistEffect. by rewrite H. Qed.

Lemma persistEffect_nonempty env w :
  messages env ≠ [] →
  persistEffect env w
  = (tt, {| cells := cells w; messagesChanged := messagesChanged w;
            localStorage :=
              <[messagesRepoKey := Stringified (messages env)]> (localStorage w);
            sessionStorage := sessionStorage w |},
     [localStorage_setItem messagesRepoKey (Stringified (messages env))]).
Proof.
  intros H. unfold persistEffect.
  destruct (messages env) as [|m l]; [done|].
  rewrite bool_decide_eq_false_2; [done | cbn; lia].
Qed.

(** C7: saving an empty log writes nothing, whatever the store holds: the
    effect run on an empty [messages] returns before [setItem], and after
    [setMessages([])] and its render the store is the one before, with no
    call made to it. *)
Theorem C7_save_empty_no_write (w : World) :
  (∀ e p i b,
     persistEffect {| engine := e; engineLoadingProgress := p; msgInput := i;
                      messages := []; processingMsg := b |} w = (tt, w, []))
  ∧ localStorage (after (save [] w)) = localStorage w
  ∧ calls (save [] w) = []
  ∧ load (after (save [] w)) = load w.
Proof.
  split; [done|].
  unfold load. fields w. eval_M. by rewrite persistEffect_empty.
Qed.

(** ** The Turn Processor *)

Lemma processMsg_stale (env : Render) (msgList : list Message) (w : World) :
  engine env = None → processMsg env msgList w = (None, w, []).
Proof. intros H. unfold processMsg. by rewrite H. Qed.

Lemma processMsg_sent (env : Render) (e : MLCEngine) (msgList : list Message)
    (w : World) :
  engine env = Some e →
  processMsg env msgList w
  = (Some processMsg_awaiting,
     {| cells := {| engine := engine (cells w);
                    engineLoadingProgress := engineLoadingProgress (cells w);
                    msgInput := msgInput (cells w);
                    messages := messages (cells w);
                    processingMsg := true |};
        messagesChanged := messagesChanged w;
        localStorage := localStorage w;
        sessionStorage := sessionStorage w |},
     [setTimeout_scroll 100; chat_completions_create e (prompt_of msgList)]).
Proof. intros H. unfold processMsg. rewrite H. fields w. by eval_M. Qed.

(** What the start of a turn leaves alone. *)
Lemma processMsg_frame (env : Render) (msgList : list Message) (w : World) :
  let w' := after (processMsg env msgList w) in
  sessionStorage w' = sessionStorage w
  ∧ localStorage w' = localStorage w
  ∧ messagesChanged w' = messagesChanged w
  ∧ messages (cells w') = messages (cells w)
  ∧ engine (cells w') = engine (cells w)
  ∧ engineLoadingProgress (cells w') = engineLoadingProgress (cells w)
  ∧ msgInput (cells w') = msgInput (cells w).
Proof.
  destruct (engine env) as [e|] eqn:He.
  - by rewrite (processMsg_sent _ _ _ _ He).
  - by rewrite (processMsg_stale _ _ _ He).
Qed.

(** C10: a form submitted from a render whose [engine] is [null] stops at the
    guard of [sendMsg]: the world (the log, the pending input, the store) is
    the one before, no handler is suspended, and the only call made is
    [e.preventDefault()]. *)
Theorem C10_submit_without_engine (env : Render) (uuid now : string) (w : World) :
  engine env = None →
  sendMsg env uuid now w = (None, w, [preventDefault]).
Proof. intros H. unfold sendMsg. rewrite H. fields w. by eval_M. Qed.

Lemma C10_submit_without_engine_witness :
  engine initial_cells = None
  ∧ sendMsg initial_cells "9f1c" "2024-05-01T10:00:00.000Z" fresh_world
    = (None, fresh_world, [preventDefault]).
Proof.
  split; [reflexivity|].
  apply C10_submit_without_engine. reflexivity.
Defined.

(** C5: when the completion call is rejected, the turn appends nothing: the
    published log and the store after the turn are those before it, the
    busy flag is false, and the continuation only logs the error and asks
    for a scroll; the same holds of the continuation in whatever world [w']
    the rejection finds. *)
Theorem C5_failed_completion (env : Render) (msgList : list Message)
    (err uuid now : string) (w w' : World) :
  let w1 := after (processMsg env msgList w) in
  let r := processMsg_settled (Rejected err) uuid now w1 in
  let r' := processMsg_settled (Rejected err) uuid now w' in
  messages (cells (after r)) = messages (cells w)
  ∧ localStorage (after r) = localStorage w
  ∧ processingMsg (cells (after r)) = false
  ∧ calls r = [console_error ("unable to process message: " +:+ err);
               setTimeout_scroll 100]
  ∧ messagesChanged (after r) = messagesChanged w
  ∧ messages (cells (after r')) = messages (cells w')
  ∧ localStorage (after r') = localStorage w'
  ∧ processingMsg (cells (after r')) = false.
Proof.
  cbn zeta.
  destruct (processMsg_frame env msgList w) as (_ & Hl & Hc & Hm & _).
  destruct (after (processMsg env msgList w)) as [[? ? ? ? ?] ? ? ?].
  cbn in Hl, Hc, Hm. subst.
  unfold processMsg_settled. fields w'. by eval_M.
Qed.

(** C6: with an engine in its render, [processMsg] submits to it the system
    instruction followed by the log projected to role and content; when the
    completion is fulfilled, the published log is the one before followed by
    one message, made of the role and the content of the first choice (the
    placeholder for a content that is [null] or empty), the new id and the
    time. *)
Theorem C6_turn_request_and_append (env : Render) (e : MLCEngine)
    (msgList : list Message) (w w' : World)
    (choice : Choice) (others : list Choice) (uuid now : string) :
  engine env = Some e →
  let sent := processMsg env msgList w in
  let r := processMsg_settled
             (Fulfilled {| first_choice := choice; other_choices := others |})
             uuid now w' in
  calls sent
  = [setTimeout_scroll 100;
     chat_completions_create e
       ({| param_role := system;
           param_content := "You are a helpful AI assistant." |}
        :: map (fun m => {| param_role := role m; param_content := content m |})
               msgList)]
  ∧ result sent = Some processMsg_awaiting
  ∧ messages (cells (after sent)) = messages (cells w)
  ∧ ∃ m, messages (cells (after r)) = messages (cells w') ++ [m]
        ∧ id m = uuid ∧ sentAt m = now
        ∧ role m = choice_role (message choice)
        ∧ content m = match choice_content (message choice) with
                      | Some "" | None => "Unable to prduce response!"
                      | Some s => s
                      end.
Proof.
  intros He. cbn zeta. rewrite (processMsg_sent _ _ _ _ He).
  repeat split.
  unfold processMsg_settled. fields w'. eval_M.
  eexists. split; [done|]. cbn. repeat split.
  unfold or_else. destruct (choice_content (message choice)) as [s|]; [|done].
  destruct (decide (s = "")) as [->|Hs]; [done|].
  by destruct s.
Qed.

Lemma C6_turn_request_and_append_witness :
  engine ready_cells = Some 1
  ∧ calls (processMsg ready_cells [hi] ready_world)
    = [setTimeout_scroll 100;
       chat_completions_create 1
         [ {| param_role := system;
              param_content := "You are a helpful AI assistant." |};
           {| param_role := user; param_content := "hi" |} ]].
Proof.
  split; [reflexivity|].
  exact (proj1 (C6_turn_request_and_append ready_cells 1 [hi] ready_world
                  ready_world
                  {| message := {| choice_role := assistant;
                                   choice_content := Some "Hello!" |} |}
                  [] "51c2" "2024-05-01T10:00:02.000Z" eq_refl)).
Defined.

(** ** The Engine Lifecycle Controller *)

Lemma reset_world (w : World) :
  reset w
  = (tt, {| cells := initial_cells; messagesChanged := false;
            localStorage := delete messagesRepoKey (localStorage w);
            sessionStorage := delete loadEngineProgressKey (sessionStorage w) |},
     [deleteModelAllInfoInCache modelId;
      localStorage_removeItem messagesRepoKey;
      sessionStorage_removeItem loadEngineProgressKey]).
Proof. fields w. eval_M. by rewrite persistEffect_empty. Qed.

(** C8: whatever the state before, when [clearStorage] has run to its end
    the log is gone from the store (a read gives the empty log), the handle
    is unset, the guard, the progress text, the log, the busy flag and the
    input are cleared, and the lifecycle is [Unloaded]; a second reset leaves
    that world as it is. *)
Theorem C8_reset_complete (w : World) :
  let w' := after (reset w) in
  localStorage w' !! messagesRepoKey = None
  ∧ load w' = Some []
  ∧ engine (cells w') = None
  ∧ sessionStorage w' !! loadEngineProgressKey = None
  ∧ engineLoadingProgress (cells w') = ""
  ∧ messages (cells w') = []
  ∧ processingMsg (cells w') = false
  ∧ msgInput (cells w') = ""
  ∧ lifecycle w' = Unloaded
  ∧ after (reset w') = w'.
Proof.
  cbn zeta. rewrite !reset_world.
  unfold lifecycle, guard_set, load, after. cbn [fst snd cells localStorage
    sessionStorage engine engineLoadingProgress messages processingMsg msgInput
    initial_cells].
  rewrite !lookup_delete_eq.
  repeat split.
  f_equal; apply delete_id, lookup_delete_eq.
Qed.

Lemma prepareEngine_blocked (env : Render) (w : World) :
  guard_set w = true →
  prepareEngine env w = (None, w, [sessionStorage_getItem loadEngineProgressKey]).
Proof.
  unfold guard_set, prepareEngine. intros H%bool_decide_eq_true.
  fields w. cbn in H. eval_M. by rewrite H.
Qed.

Lemma prepareEngine_passes (env : Render) (w : World) :
  guard_set w = false →
  prepareEngine env w
  = (Some (prepareEngine_awaiting env),
     {| cells := cells w; messagesChanged := messagesChanged w;
        localStorage := localStorage w;
        sessionStorage := <[loadEngineProgressKey := "true"]> (sessionStorage w) |},
     [sessionStorage_getItem loadEngineProgressKey;
      sessionStorage_setItem loadEngineProgressKey "true";
      CreateMLCEngine modelId]).
Proof.
  unfold guard_set, prepareEngine. intros H%bool_decide_eq_false.
  fields w. cbn in H. eval_M. by destruct (decide _).
Qed.

Lemma prepareEngine_settled_session (env : Render) (e : Settled MLCEngine)
    (w : World) :
  sessionStorage (after (prepareEngine_settled env e w))
  = delete loadEngineProgressKey (sessionStorage w).
Proof. settled_cases env e w. Qed.

Lemma prepareEngine_settled_result (env : Render) (e : Settled MLCEngine)
    (w : World) :
  result (prepareEngine_settled env e w) = None
  ∨ result (prepareEngine_settled env e w) = Some processMsg_awaiting.
Proof. settled_cases env e w; auto. Qed.

(** C4: however the load settles, fulfilled or rejected, the continuation of
    [prepareEngine] removes the guard: it is unset in the world that
    [prepareEngine] leaves, and the next [prepareEngine], from any render,
    passes the test, sets the guard and asks the runtime for a load. *)
Theorem C4_guard_cleared_on_every_exit (env env' : Render)
    (e : Settled MLCEngine) (w : World) :
  let w' := after (prepareEngine_settled env e w) in
  sessionStorage w' !! loadEngineProgressKey = None
  ∧ guard_set w' = false
  ∧ result (prepareEngine env' w') = Some (prepareEngine_awaiting env')
  ∧ calls (prepareEngine env' w')
    = [sessionStorage_getItem loadEngineProgressKey;
       sessionStorage_setItem loadEngineProgressKey "true";
       CreateMLCEngine modelId].
Proof.
  cbn zeta.
  assert (guard_set (after (prepareEngine_settled env e w)) = false) as Hg.
  { unfold guard_set. rewrite prepareEngine_settled_session.
    by rewrite lookup_delete_eq. }
  rewrite (prepareEngine_passes _ _ Hg), prepareEngine_settled_session.
  by rewrite lookup_delete_eq.
Qed.

(** ** The Conversation Replay Driver *)

(** C2, as stated, fails: after a load that is rejected (the error is
    logged and no handle is stored) the driver has run all the same: the
    store has been read and its log published. *)
Lemma C2_replay_runs_after_failed_load :
  engine (cells (world failed_load)) = None
  ∧ console_error "unable to fully load the model: out of memory"
      ∈ history failed_load
  ∧ replay_reads (history failed_load) = 1
  ∧ messages (cells (world failed_load)) = [hi]
  ∧ messages (cells (world (page_load {[ messagesRepoKey := Stringified [hi] ]} ∅)))
    = [].
Proof. vm_compute. repeat split. repeat constructor. Qed.

(** C2, amended: the driver runs once in every continuation of
    [prepareEngine], whether the load was fulfilled or rejected, and never
    before the load settles: the persisted log is read once, right after the
    removal of the guard and, for a fulfilled load, with the handle stored;
    the log read is published (the published log stays when the text does
    not parse). *)
Theorem C2_replay_once_after_guard_cleared (env env0 : Render)
    (e : Settled MLCEngine) (w w0 : World) :
  let r := prepareEngine_settled env e w in
  replay_reads (calls r) = 1
  ∧ (∃ before behind,
       calls r = before
                 ++ [sessionStorage_removeItem loadEngineProgressKey;
                     localStorage_getItem messagesRepoKey]
                 ++ behind)
  ∧ guard_set (after r) = false
  ∧ engine (cells (after r))
    = match e with Fulfilled e' => Some e' | Rejected _ => engine (cells w) end
  ∧ messages (cells (after r))
    = match load w with Some l => l | None => messages (cells w) end
  ∧ replay_reads (calls (prepareEngine env0 w0)) = 0.
Proof.
  cbn zeta. split; [|split; [|split; [|split; [|split]]]].
  - settled_cases env e w.
  - settled_cases env e w;
      first [ by exists []; eexists | by eexists [_]; eexists ].
  - unfold guard_set. rewrite prepareEngine_settled_session.
    by rewrite lookup_delete_eq.
  - settled_cases env e w.
  - settled_cases env e w.
  - destruct (guard_set w0) eqn:Hg.
    + by rewrite prepareEngine_blocked.
    + by rewrite prepareEngine_passes.
Qed.

(** *** Events *)

Lemma commit_clean (w : World) :
  messagesChanged w = false → commit w = (tt, w, []).
Proof. intros H. unfold commit. by rewrite H. Qed.

Lemma commit_changed_empty (w : World) :
  messagesChanged w = true →
  messages (cells w) = [] →
  commit w
  = (tt, {| cells := cells w; messagesChanged := false;
            localStorage := localStorage w;
            sessionStorage := sessionStorage w |}, []).
Proof.
  intros Hc Hm. unfold commit, bind, messages_rendered. rewrite Hc.
  by rewrite persistEffect_empty.
Qed.

Lemma commit_changed_nonempty (w : World) :
  messagesChanged w = true →
  messages (cells w) ≠ [] →
  commit w
  = (tt, {| cells := cells w; messagesChanged := false;
            localStorage :=
              <[messagesRepoKey := Stringified (messages (cells w))]>
                (localStorage w);
            sessionStorage := sessionStorage w |},
     [localStorage_setItem messagesRepoKey (Stringified (messages (cells w)))]).
Proof.
  intros Hc Hm. unfold commit, bind, messages_rendered. rewrite Hc.
  by rewrite persistEffect_nonempty.
Qed.

Lemma commit_frame (w : World) :
  let w' := after (commit w) in
  cells w' = cells w
  ∧ sessionStorage w' = sessionStorage w
  ∧ messagesChanged w' = false.
Proof.
  unfold commit. destruct (messagesChanged w) eqn:Hc; [|done].
  unfold persistEffect.
  destruct (bool_decide _); fields w; by eval_M.
Qed.

Lemma exec_run {A} (c : M A) (spawned : A → list Task) (rest : list Task)
    (s : Sys) (a : A) (w : World) (t : list Call) :
  c (world s) = (a, w, t) →
  exec c spawned rest s
  = {| world := after (commit w);
       pending := rest ++ spawned a;
       history := history s ++ t ++ calls (commit w) |}.
Proof.
  intros H. unfold exec, bind. rewrite H.
  destruct (commit w) as [[[] w'] t']. cbn. by rewrite app_nil_r.
Qed.

Lemma page_load_world (ls : gmap string Item) (ss : gmap string string) :
  page_load ls ss
  = {| world := {| cells := initial_cells; messagesChanged := false;
                   localStorage := ls;
                   sessionStorage := delete loadEngineProgressKey ss |};
       pending := [];
       history := [sessionStorage_removeItem loadEngineProgressKey] |}.
Proof.
  unfold page_load. set (w := {| cells := initial_cells |}).
  assert ((sessionStorage_remove loadEngineProgressKey ;;
           persistEffect initial_cells) w
          = (tt, {| cells := initial_cells; messagesChanged := false;
                    localStorage := ls;
                    sessionStorage := delete loadEngineProgressKey ss |},
             [sessionStorage_removeItem loadEngineProgressKey])) as ->; [|done].
  unfold bind, sessionStorage_remove. by rewrite persistEffect_empty.
Qed.

Lemma step_click_Start_blocked (s : Sys) :
  guard_set (world s) = true →
  messagesChanged (world s) = false →
  step s click_Start
  = {| world := world s; pending := pending s;
       history := history s ++ [sessionStorage_getItem loadEngineProgressKey] |}.
Proof.
  intros Hg Hc. unfold step.
  rewrite (exec_run _ _ _ _ _ _ _ (prepareEngine_blocked _ _ Hg)).
  rewrite (commit_clean _ Hc). cbn. by rewrite app_nil_r.
Qed.

Lemma step_click_Start_passes (s : Sys) :
  guard_set (world s) = false →
  messagesChanged (world s) = false →
  step s click_Start
  = {| world :=
         {| cells := cells (world s); messagesChanged := false;
            localStorage := localStorage (world s);
            sessionStorage :=
              <[loadEngineProgressKey := "true"]> (sessionStorage (world s)) |};
       pending := pending s ++ [prepareEngine_awaiting (cells (world s))];
       history := history s
                  ++ [sessionStorage_getItem loadEngineProgressKey;
                      sessionStorage_setItem loadEngineProgressKey "true";
                      CreateMLCEngine modelId] |}.
Proof.
  intros Hg Hc. unfold step.
  rewrite (exec_run _ _ _ _ _ _ _ (prepareEngine_passes _ _ Hg)).
  rewrite commit_clean by done. proj. by rewrite Hc.
Qed.

(** A form submitted without an engine, through [step]: nothing is
    persisted by the render that follows. *)
Lemma submit_without_engine_step (s : Sys) (uuid now : string) :
  engine (cells (world s)) = None →
  messagesChanged (world s) = false →
  step s (submit_form uuid now)
  = {| world := world s; pending := pending s;
       history := history s ++ [preventDefault] |}.
Proof.
  intros He Hc. unfold step.
  assert (sendMsg (cells (world s)) uuid now (world s)
          = (None, world s, [preventDefault])) as H.
  { unfold sendMsg. rewrite He. fields (world s). by eval_M. }
  rewrite (exec_run _ _ _ _ _ _ _ H), (commit_clean _ Hc).
  cbn. by rewrite app_nil_r.
Qed.

(** The continuation of [prepareEngine] in a render without an engine, which
    is every render that shows Start: the call of [processMsg] returns at
    its guard, whatever the log. *)
Lemma prepareEngine_settled_stale (env : Render) (e : Settled MLCEngine)
    (w : World) :
  engine env = None →
  prepareEngine_settled env e w
  = (None,
     {| cells :=
          {| engine := match e with
                       | Fulfilled e' => Some e'
                       | Rejected _ => engine (cells w)
                       end;
             engineLoadingProgress := match e with
                                      | Fulfilled _ => ""
                                      | Rejected _ => engineLoadingProgress (cells w)
                                      end;
             msgInput := msgInput (cells w);
             messages := match load w with
                         | Some l => l
                         | None => messages (cells w)
                         end;
             processingMsg := processingMsg (cells w) |};
        messagesChanged := match load w with
                           | Some _ => true
                           | None => messagesChanged w
                           end;
        localStorage := localStorage w;
        sessionStorage := delete loadEngineProgressKey (sessionStorage w) |},
     match e with
     | Fulfilled _ => []
     | Rejected err =>
         [console_error ("unable to fully load the model: " +:+ err)]
     end
     ++ [sessionStorage_removeItem loadEngineProgressKey;
         localStorage_getItem messagesRepoKey;
         setTimeout_scroll 100]).
Proof.
  intros He. unfold prepareEngine_settled, load. fields w.
  destruct env as [? ? ? ? ?]. cbn in He. subst.
  destruct e as [e|err]; eval_M;
    (destruct (JSON_parse_or_empty _) as [l|]; eval_M; [|done]);
    by destruct (_ && _).
Qed.

(** C1 (the code departs from it): when [start()] has resolved, the log
    published and the log stored are the persisted log and nothing more, no
    completion was asked of the engine and no handler is left to append a
    reply, whatever the role of the last entry.  The continuation of
    [prepareEngine] calls the [processMsg] of the render in which Start was
    clicked, where [engine] is [null]. *)
Theorem C1_replay_turn_is_dropped (ls : gmap string Item)
    (ss : gmap string string) (l : list Message) (e : MLCEngine) :
  let s := start_resolved ls ss l e in
  engine (cells (world s)) = Some e
  ∧ messages (cells (world s)) = l
  ∧ load (world s) = Some l
  ∧ pending s = []
  ∧ filter is_completion_request (history s) = [].
Proof.
  unfold start_resolved, run. rewrite page_load_world. cbn [foldl].
  rewrite step_click_Start_passes; proj;
    [| unfold guard_set; proj; by rewrite lookup_delete_eq | done].
  unfold step. proj. cbn [lookup list_lookup].
  erewrite exec_run by (by apply prepareEngine_settled_stale).
  unfold load. proj. rewrite lookup_insert_eq.
  cbn [JSON_parse_or_empty].
  destruct l as [|m l].
  - rewrite commit_changed_empty by done. proj.
    rewrite lookup_insert_eq. by cbn.
  - rewrite commit_changed_nonempty by done. proj.
    rewrite lookup_insert_eq. by cbn.
Qed.

(** The scenario of the specification: the log [[hi]] ends with a user
    entry, and stays as it is. *)
Lemma replay_scenario :
  let s := start_resolved ∅ ∅ [hi] 1 in
  messages (cells (world s)) = [hi]
  ∧ localStorage (world s) !! messagesRepoKey = Some (Stringified [hi])
  ∧ pending s = []
  ∧ filter is_completion_request (history s) = [].
Proof. vm_compute. done. Qed.

(** From a render that holds an engine the same continuation does submit
    the turn, as [sendMsg] does: the call is there, the handle is not. *)
Lemma replay_from_render_with_engine (env : Render) (e0 e : MLCEngine)
    (l : list Message) (m : Message) (w : World) :
  engine env = Some e0 →
  role m = user →
  load w = Some (l ++ [m]) →
  let r := prepareEngine_settled env (Fulfilled e) w in
  result r = Some processMsg_awaiting
  ∧ filter is_completion_request (calls r)
    = [chat_completions_create e0 (prompt_of (l ++ [m]))].
Proof.
  intros He Hm Hl. unfold load in Hl.
  unfold prepareEngine_settled. fields w. destruct env as [? ? ? ? ?].
  cbn in He, Hl. subst. eval_M. rewrite Hl. eval_M.
  rewrite last_snoc. cbn [fmap option_fmap option_map]. rewrite Hm.
  rewrite length_app. cbn [length].
  rewrite bool_decide_eq_true_2 by lia.
  rewrite bool_decide_eq_true_2 by done. by eval_M.
Qed.

(** *** The log along the events *)

Lemma exec_world {A} (c : M A) (spawned : A → list Task) (rest : list Task)
    (s : Sys) :
  world (exec c spawned rest s) = after (commit (after (c (world s))))
  ∧ pending (exec c spawned rest s) = rest ++ spawned (result (c (world s)))
  ∧ history (exec c spawned rest s)
    = history s ++ calls (c (world s)) ++ calls (commit (after (c (world s)))).
Proof.
  destruct (c (world s)) as [[a w] t] eqn:H.
  rewrite (exec_run _ _ _ _ _ _ _ H). done.
Qed.

Lemma exec_cells {A} (c : M A) (spawned : A → list Task) (rest : list Task)
    (s : Sys) :
  cells (world (exec c spawned rest s)) = cells (after (c (world s))).
Proof.
  rewrite (proj1 (exec_world _ _ _ _)). apply commit_frame.
Qed.

Lemma sendMsg_messages (env : Render) (uuid now : string) (w : World) :
  messages (cells (after (sendMsg env uuid now w)))
  = match engine env with
    | None => messages (cells w)
    | Some _ =>
        messages env
        ++ [ {| id := uuid; role := user; content := msgInput env;
                sentAt := now |} ]
    end.
Proof.
  unfold sendMsg. fields w. destruct env as [[e|] ? ? ? ?]; by eval_M.
Qed.

Lemma processMsg_settled_messages (reply : Settled ChatCompletion)
    (uuid now : string) (w : World) :
  ∃ k, messages (cells (after (processMsg_settled reply uuid now w)))
       = messages (cells w) ++ k.
Proof.
  unfold processMsg_settled. fields w.
  destruct reply as [[c cs]|err]; eval_M;
    first [ by exists []; rewrite app_nil_r | by eexists ].
Qed.

Lemma step_turn_event_grows (s : Sys) (ev : Event) :
  turn_event ev = true →
  ∃ k, messages (cells (world (step s ev))) = messages (cells (world s)) ++ k.
Proof.
  destruct ev as [| | | | |uuid now|i reply uuid now|value]; try done; intros _;
    unfold step.
  - rewrite exec_cells, sendMsg_messages.
    destruct (engine _); [by eexists | by exists []; rewrite app_nil_r].
  - destruct (pending s !! i) as [[| |]|];
      try (by exists []; rewrite app_nil_r).
    rewrite exec_cells. apply processMsg_settled_messages.
  - rewrite exec_cells. exists []. rewrite app_nil_r.
    unfold onChange. fields (world s). by eval_M.
Qed.

(** C9: along any sequence of turns (forms submitted, completions settled,
    rejected or fulfilled with a reply that carries a first choice, input
    typed), from any state, the published log only grows: the log before is
    a prefix of the log after, so no entry moves or changes and the length
    does not decrease. *)
Theorem C9_log_append_only (s : Sys) (evs : list Event) :
  forallb turn_event evs = true →
  messages (cells (world s)) `prefix_of` messages (cells (world (run s evs)))
  ∧ (length (messages (cells (world s)))
     ≤ length (messages (cells (world (run s evs)))))%nat.
Proof.
  intros H.
  assert (messages (cells (world s))
            `prefix_of` messages (cells (world (run s evs)))) as Hp.
  { revert s. induction evs as [|ev evs IH]; intros s; [done|].
    cbn in H. apply andb_true_iff in H as [Hev Hevs].
    destruct (step_turn_event_grows s ev Hev) as [k Hk].
    cbn [run foldl]. etrans; [|apply (IH Hevs)].
    rewrite Hk. by apply prefix_app_r. }
  split; [done|]. by apply prefix_length.
Qed.

Lemma C9_log_append_only_witness :
  forallb turn_event
    [submit_form "77aa" "2024-05-01T10:01:00.000Z";
     completion_settles 0 (Rejected "aborted") "" "";
     input_changes "again"] = true
  ∧ (length (messages (cells (world
       {| world := ready_world; pending := []; history := [] |})))
     ≤ length (messages (cells (world
         (run {| world := ready_world; pending := []; history := [] |}
            [submit_form "77aa" "2024-05-01T10:01:00.000Z";
             completion_settles 0 (Rejected "aborted") "" "";
             input_changes "again"])))))%nat.
Proof.
  split; [reflexivity|].
  apply (C9_log_append_only
           {| world := ready_world; pending := []; history := [] |}).
  reflexivity.
Defined.

(** *** The load guard along the events *)

Lemma loads_app (l k : list Task) :
  length (filter is_load (l ++ k))
  = (length (filter is_load l) + length (filter is_load k))%nat.
Proof. by rewrite filter_app, length_app. Qed.

Lemma loads_delete (l : list Task) (i : nat) (t : Task) :
  l !! i = Some t →
  length (filter is_load l)
  = ((if is_load t then 1 else 0) + length (filter is_load (delete i l)))%nat.
Proof.
  revert i. induction l as [|a l IH]; intros [|i] H; try done.
  - cbn in H. injection H as ->. change (delete 0 (t :: l)) with l.
    rewrite filter_cons. by destruct (is_load t).
  - cbn in H. change (delete (S i) (a :: l)) with (a :: delete i l).
    rewrite !filter_cons.
    specialize (IH i H).
    destruct (decide (is_load a)); cbn [length]; destruct (is_load t); lia.
Qed.

Lemma exec_session {A} (c : M A) (spawned : A → list Task) (rest : list Task)
    (s : Sys) :
  sessionStorage (world (exec c spawned rest s))
  = sessionStorage (after (c (world s)))
  ∧ messagesChanged (world (exec c spawned rest s)) = false.
Proof.
  rewrite (proj1 (exec_world _ _ _ _)).
  split; apply commit_frame.
Qed.

Lemma guard_set_session (w w' : World) :
  sessionStorage w' = sessionStorage w → guard_set w' = guard_set w.
Proof. unfold guard_set. by intros ->. Qed.

Lemma sendMsg_session (env : Render) (uuid now : string) (w : World) :
  sessionStorage (after (sendMsg env uuid now w)) = sessionStorage w
  ∧ filter is_load (option_list (result (sendMsg env uuid now w))) = [].
Proof.
  unfold sendMsg. fields w. destruct env as [[e|] ? ? ? ?]; by eval_M.
Qed.

Lemma processMsg_settled_session (reply : Settled ChatCompletion)
    (uuid now : string) (w : World) :
  sessionStorage (after (processMsg_settled reply uuid now w))
  = sessionStorage w.
Proof.
  unfold processMsg_settled. fields w.
  destruct reply as [[c cs]|err]; by eval_M.
Qed.

Lemma clearStorage_settled_session (r : Settled unit) (w : World) :
  sessionStorage (after (clearStorage_settled r w))
  = match r with
    | Fulfilled _ => delete loadEngineProgressKey (sessionStorage w)
    | Rejected _ => sessionStorage w
    end.
Proof. fields w. destruct r as [[]|err]; by eval_M. Qed.

Lemma guarded_exec {A} (c : M A) (spawned : A → list Task) (rest : list Task)
    (s : Sys) (n : nat) :
  length (filter is_load (rest ++ spawned (result (c (world s))))) = n →
  (n ≤ 1)%nat →
  (n = 1%nat → guard_set (after (c (world s))) = true) →
  guarded (exec c spawned rest s).
Proof.
  intros Hn Hle Hg. unfold guarded, loads_in_flight.
  destruct (exec_session c spawned rest s) as [Hs Hc].
  rewrite (proj1 (proj2 (exec_world _ _ _ _))), Hn.
  rewrite (guard_set_session _ _ Hs). done.
Qed.

Lemma step_guarded (s : Sys) (ev : Event) :
  guarded s →
  (completes_reset s ev = true → loads_in_flight s = 0%nat) →
  guarded (step s ev).
Proof.
  intros (Hc & Hle & Hg) Hreset. unfold loads_in_flight in *.
  destruct ev as [|i text|i e| |i r|uuid now|i reply uuid now|value].
  - destruct (guard_set (world s)) eqn:Hset.
    + rewrite step_click_Start_blocked by done. done.
    + rewrite step_click_Start_passes by done.
      assert (length (filter is_load (pending s)) = 0%nat) as H0.
      { destruct (length (filter is_load (pending s))) as [|[|n]]; [done| |lia].
        specialize (Hg eq_refl). congruence. }
      unfold guarded, loads_in_flight, guard_set. proj.
      rewrite loads_app, H0, lookup_insert_eq. by cbn.
  - unfold step. destruct (pending s !! i) as [[env| |]|]; try done.
    apply (guarded_exec _ _ _ _ (length (filter is_load (pending s)))).
    + by rewrite app_nil_r.
    + done.
    + intros H. rewrite <- (Hg H). apply guard_set_session.
      unfold initProgressCallback. fields (world s). by eval_M.
  - unfold step. destruct (pending s !! i) as [[env| |]|] eqn:Hi; try done.
    pose proof (loads_delete _ _ _ Hi) as Hd. cbn [is_load] in Hd.
    apply (guarded_exec _ _ _ _ 0); [|lia|done].
    rewrite loads_app.
    assert (length (filter is_load
              (option_list (result (prepareEngine_settled env e (world s)))))
            = 0%nat) as ->
      by (by destruct (prepareEngine_settled_result env e (world s))
               as [-> | ->]).
    lia.
  - unfold step.
    apply (guarded_exec _ _ _ _ (length (filter is_load (pending s)))).
    + rewrite loads_app. fields (world s). by eval_M.
    + done.
    + intros H. rewrite <- (Hg H). apply guard_set_session.
      fields (world s). by eval_M.
  - unfold step. destruct (pending s !! i) as [[env| |]|] eqn:Hi; try done.
    pose proof (loads_delete _ _ _ Hi) as Hd. cbn [is_load] in Hd.
    apply (guarded_exec _ _ _ _ (length (filter is_load (pending s)))).
    + rewrite app_nil_r. lia.
    + done.
    + intros H. destruct r as [[]|err].
      * unfold completes_reset in Hreset. rewrite Hi in Hreset.
        specialize (Hreset eq_refl). lia.
      * rewrite <- (Hg H). apply guard_set_session.
        by rewrite clearStorage_settled_session.
  - unfold step.
    destruct (sendMsg_session (cells (world s)) uuid now (world s))
      as [Hs Hp].
    apply (guarded_exec _ _ _ _ (length (filter is_load (pending s)))).
    + rewrite filter_app, Hp. by rewrite app_nil_r.
    + done.
    + intros H. rewrite <- (Hg H). by apply guard_set_session.
  - unfold step. destruct (pending s !! i) as [[env| |]|] eqn:Hi; try done.
    pose proof (loads_delete _ _ _ Hi) as Hd. cbn [is_load] in Hd.
    apply (guarded_exec _ _ _ _ (length (filter is_load (pending s)))).
    + rewrite app_nil_r. lia.
    + done.
    + intros H. rewrite <- (Hg H). apply guard_set_session.
      apply processMsg_settled_session.
  - unfold step.
    apply (guarded_exec _ _ _ _ (length (filter is_load (pending s)))).
    + by rewrite app_nil_r.
    + done.
    + intros H. rewrite <- (Hg H). apply guard_set_session.
      unfold onChange. fields (world s). by eval_M.
Qed.

Lemma run_guarded (s : Sys) (evs : list Event) :
  guarded s →
  no_reset_during_load s evs = true →
  guarded (run s evs).
Proof.
  revert s. induction evs as [|ev evs IH]; intros s Hs H; [done|].
  cbn [no_reset_during_load] in H. apply andb_true_iff in H as [Hev Hevs].
  cbn [run foldl]. apply IH; [|done].
  apply step_guarded; [done|]. intros Hr. rewrite Hr in Hev.
  cbn in Hev. apply negb_true_iff, bool_decide_eq_false in Hev. lia.
Qed.

Lemma page_load_guarded (ls : gmap string Item) (ss : gmap string string) :
  guarded (page_load ls ss).
Proof. rewrite page_load_world. unfold guarded, loads_in_flight. cbn. lia. Qed.

(** C3, as stated, fails: in a run that the screens allow, a second reset
    ends while a load is in flight and removes its guard; Start is on screen
    again, and the click sends a second load request while the first load
    has not settled. *)
Lemma C3_second_load_after_reset_race :
  let s := run (page_load ∅ ∅) reset_race in
  realizable (page_load ∅ ∅) (reset_race ++ [click_Start]) = true
  ∧ loads_in_flight s = 1%nat
  ∧ loads_in_flight (step s click_Start) = 2%nat
  ∧ length (filter is_load_request (history (step s click_Start)))
    = S (length (filter is_load_request (history s))).
Proof. vm_compute. done. Qed.

(** C3, amended: in every run from the load of the page in which no reset
    ends while a load is in flight, at most one load is in flight at any
    time, and a [prepareEngine] invoked while one is in flight is a no-op:
    it reads the guard and returns, the world and the suspended handlers
    stay as they are, and no load request is sent. *)
Theorem C3_second_start_is_noop (ls : gmap string Item)
    (ss : gmap string string) (evs : list Event) :
  no_reset_during_load (page_load ls ss) evs = true →
  let s := run (page_load ls ss) evs in
  (loads_in_flight s ≤ 1)%nat
  ∧ (loads_in_flight s = 1%nat →
     step s click_Start
     = {| world := world s; pending := pending s;
          history := history s
                     ++ [sessionStorage_getItem loadEngineProgressKey] |}
     ∧ filter is_load_request (history (step s click_Start))
       = filter is_load_request (history s)).
Proof.
  intros H. cbn zeta.
  destruct (run_guarded _ _ (page_load_guarded ls ss) H) as (Hc & Hle & Hg).
  split; [done|]. intros H1.
  rewrite (step_click_Start_blocked _ (Hg H1) Hc).
  split; [done|]. proj. rewrite filter_app. cbn. by rewrite app_nil_r.
Qed.

Lemma C3_second_start_is_noop_witness :
  no_reset_during_load (page_load ∅ ∅) impatient_clicks = true
  ∧ loads_in_flight (run (page_load ∅ ∅) impatient_clicks) = 1%nat
  ∧ filter is_load_request
      (history (step (run (page_load ∅ ∅) impatient_clicks) click_Start))
    = filter is_load_request (history (run (page_load ∅ ∅) impatient_clicks)).
Proof.
  split; [vm_compute; reflexivity|].
  split; [vm_compute; reflexivity|].
  apply (C3_second_start_is_noop ∅ ∅ impatient_clicks);
    vm_compute; reflexivity.
Defined.

(** *** The log along all the events *)

Lemma persisted_exec {A} (c : M A) (spawned : A → list Task)
    (rest : list Task) (s : Sys) :
  persisted s →
  localStorage (after (c (world s))) = localStorage (world s) →
  messagesChanged (after (c (world s))) = true
  ∨ messagesChanged (after (c (world s))) = messagesChanged (world s)
    ∧ messages (cells (after (c (world s)))) = messages (cells (world s)) →
  persisted (exec c spawned rest s).
Proof.
  intros [Hc Hp] Hl Hm. unfold persisted.
  rewrite (proj1 (exec_world _ _ _ _)).
  set (w1 := after (c (world s))) in *.
  destruct (messagesChanged w1) eqn:Hc1.
  - destruct (decide (messages (cells w1) = [])) as [He|Hne].
    + rewrite commit_changed_empty by done. by proj.
    + rewrite commit_changed_nonempty by done. proj.
      split; [done|]. intros _. apply lookup_insert_eq.
  - destruct Hm as [|[_ Hm]]; [done|].
    rewrite commit_clean by done. unfold after at 1 2 3 4. cbn [fst snd].
    rewrite Hl, Hm. done.
Qed.

Lemma prepareEngine_settled_log (env : Render) (e : Settled MLCEngine)
    (w : World) :
  let r := prepareEngine_settled env e w in
  localStorage (after r) = localStorage w
  ∧ messages (cells (after r))
    = match load w with Some l => l | None => messages (cells w) end
  ∧ messagesChanged (after r)
    = match load w with Some _ => true | None => messagesChanged w end.
Proof. cbn zeta. repeat split; settled_cases env e w. Qed.

Lemma step_persisted_grows (s : Sys) (ev : Event) :
  persisted s →
  completes_reset s ev = false →
  persisted (step s ev)
  ∧ messages (cells (world s)) `prefix_of` messages (cells (world (step s ev))).
Proof.
  intros Hp Hr. pose proof Hp as [Hc Hst].
  destruct ev as [|i text|i e| |i r|uuid now|i reply uuid now|value].
  - destruct (guard_set (world s)) eqn:Hg.
    + rewrite step_click_Start_blocked by done. by destruct s.
    + rewrite step_click_Start_passes by done. split; [|done].
      unfold persisted. by proj.
  - unfold step. destruct (pending s !! i) as [[env| |]|]; try done.
    split.
    + apply persisted_exec; [done| |right];
        unfold initProgressCallback; fields (world s); by eval_M.
    + rewrite exec_cells. unfold initProgressCallback.
      fields (world s). by eval_M.
  - unfold step. destruct (pending s !! i) as [[env| |]|]; try done.
    destruct (prepareEngine_settled_log env e (world s)) as (Hl & Hm & Hch).
    split.
    + apply persisted_exec; [done|done|].
      rewrite Hch, Hm. destruct (load (world s)); auto.
    + rewrite exec_cells, Hm. unfold load.
      destruct (messages (cells (world s))) as [|m l] eqn:Hms;
        [apply prefix_nil|].
      by rewrite Hst.
  - unfold step. split.
    + apply persisted_exec; [done| |right]; fields (world s); by eval_M.
    + rewrite exec_cells. fields (world s). by eval_M.
  - unfold step. destruct (pending s !! i) as [[env| |]|] eqn:Hi; try done.
    destruct r as [[]|err].
    { unfold completes_reset in Hr. by rewrite Hi in Hr. }
    split.
    + apply persisted_exec; [done| |right]; fields (world s); by eval_M.
    + rewrite exec_cells. fields (world s). by eval_M.
  - split; [|destruct (step_turn_event_grows s (submit_form uuid now) eq_refl)
                as [k ->]; by apply prefix_app_r].
    unfold step. apply persisted_exec; [done| |].
    + unfold sendMsg. fields (world s). cbn [world cells engine].
      destruct engine0; by eval_M.
    + unfold sendMsg. fields (world s). cbn [world cells engine].
      destruct engine0; eval_M; auto.
  - split; [|destruct (step_turn_event_grows s
                         (completion_settles i reply uuid now) eq_refl)
                as [k ->]; by apply prefix_app_r].
    unfold step. destruct (pending s !! i) as [[env| |]|]; try done.
    apply persisted_exec; [done| |];
      unfold processMsg_settled; fields (world s);
      destruct reply as [[c cs]|err]; eval_M; auto.
  - split; [|destruct (step_turn_event_grows s (input_changes value) eq_refl)
                as [k ->]; by apply prefix_app_r].
    unfold step. apply persisted_exec; [done| |right];
      unfold onChange; fields (world s); by eval_M.
Qed.

(** Append-only beyond the turns: from the load of the page, along any
    events among which no reset ends, loads and replays included, the
    published log only grows. *)
Lemma log_grows_without_reset (ls : gmap string Item) (ss : gmap string string)
    (evs evs' : list Event) :
  no_reset (page_load ls ss) (evs ++ evs') = true →
  messages (cells (world (run (page_load ls ss) evs)))
    `prefix_of` messages (cells (world (run (page_load ls ss) (evs ++ evs')))).
Proof.
  assert (∀ evs s, persisted s → no_reset s evs = true →
            persisted (run s evs)
            ∧ messages (cells (world s))
                `prefix_of` messages (cells (world (run s evs)))) as Hrun.
  { clear. intros evs. induction evs as [|ev evs IH]; intros s Hp H; [done|].
    cbn [no_reset] in H. apply andb_true_iff in H as [Hev Hevs].
    apply negb_true_iff in Hev.
    destruct (step_persisted_grows s ev Hp Hev) as [Hp' Hpre].
    destruct (IH _ Hp' Hevs) as [Hp'' Hpre'].
    cbn [run foldl]. split; [done|]. by etrans. }
  assert (∀ evs evs' s, no_reset s (evs ++ evs') = true →
            no_reset s evs = true ∧ no_reset (run s evs) evs' = true) as Hsplit.
  { clear. intros evs. induction evs as [|ev evs IH]; intros evs' s H; [done|].
    cbn [app no_reset] in *. apply andb_true_iff in H as [Hev Hevs].
    destruct (IH _ _ Hevs) as [H1 H2]. rewrite Hev, H1. done. }
  intros H. destruct (Hsplit _ _ _ H) as [H1 H2].
  assert (persisted (page_load ls ss)) as Hp0.
  { rewrite page_load_world. unfold persisted. by proj. }
  destruct (Hrun _ _ Hp0 H1) as [Hp _].
  unfold run. rewrite foldl_app. by apply Hrun.
Qed.

(** ** Beyond the claims: a whole turn *)

Lemma sendMsg_sent (env : Render) (e : MLCEngine) (uuid now : string)
    (w : World) :
  engine env = Some e →
  sendMsg env uuid now w
  = (Some processMsg_awaiting,
     {| cells := {| engine := engine (cells w);
                    engineLoadingProgress := engineLoadingProgress (cells w);
                    msgInput := "";
                    messages := messages env ++ [user_message env uuid now];
                    processingMsg := true |};
        messagesChanged := true;
        localStorage := localStorage w;
        sessionStorage := sessionStorage w |},
     [preventDefault; setTimeout_scroll 100;
      chat_completions_create e
        (prompt_of (messages env ++ [user_message env uuid now]))]).
Proof.
  intros He. unfold sendMsg, user_message. fields w.
  destruct env as [? ? ? ? ?]. cbn in He. subst. by eval_M.
Qed.

Lemma processMsg_settled_reply (choice : Choice) (others : list Choice)
    (uuid now : string) (w : World) :
  processMsg_settled
    (Fulfilled {| first_choice := choice; other_choices := others |}) uuid now w
  = (tt,
     {| cells := {| engine := engine (cells w);
                    engineLoadingProgress := engineLoadingProgress (cells w);
                    msgInput := msgInput (cells w);
                    messages := messages (cells w)
                                ++ [reply_message choice uuid now];
                    processingMsg := false |};
        messagesChanged := true;
        localStorage := localStorage w;
        sessionStorage := sessionStorage w |},
     [setTimeout_scroll 100]).
Proof. unfold processMsg_settled, reply_message. fields w. by eval_M. Qed.

Lemma step_submit_form (s : Sys) (e : MLCEngine) (uuid now : string) :
  engine (cells (world s)) = Some e →
  messagesChanged (world s) = false →
  let env := cells (world s) in
  let log := messages env ++ [user_message env uuid now] in
  step s (submit_form uuid now)
  = {| world :=
         {| cells := {| engine := Some e;
                        engineLoadingProgress := engineLoadingProgress env;
                        msgInput := "";
                        messages := log;
                        processingMsg := true |};
            messagesChanged := false;
            localStorage :=
              <[messagesRepoKey := Stringified log]> (localStorage (world s));
            sessionStorage := sessionStorage (world s) |};
       pending := pending s ++ [processMsg_awaiting];
       history := history s
                  ++ [preventDefault; setTimeout_scroll 100;
                      chat_completions_create e (prompt_of log);
                      localStorage_setItem messagesRepoKey (Stringified log)] |}.
Proof.
  intros He Hc. cbn zeta. unfold step.
  rewrite (exec_run _ _ _ _ _ _ _ (sendMsg_sent _ _ _ _ _ He)).
  rewrite commit_changed_nonempty; proj; [|done|by destruct (messages _)].
  by rewrite He.
Qed.

(** X1: a form submitted on the chat screen publishes the log of the render
    followed by one user message whose content is the input, empties the
    input, raises the busy flag, sends the engine the system instruction
    followed by that whole log, user message included, and leaves that log in
    the store; one more handler waits, for the completion. *)
Theorem submit_publishes_and_persists (s : Sys) (e : MLCEngine)
    (uuid now : string) :
  engine (cells (world s)) = Some e →
  messagesChanged (world s) = false →
  let log := messages (cells (world s))
             ++ [ {| id := uuid; role := user;
                     content := msgInput (cells (world s)); sentAt := now |} ] in
  let s' := step s (submit_form uuid now) in
  messages (cells (world s')) = log
  ∧ msgInput (cells (world s')) = ""
  ∧ processingMsg (cells (world s')) = true
  ∧ localStorage (world s') !! messagesRepoKey = Some (Stringified log)
  ∧ pending s' = pending s ++ [processMsg_awaiting]
  ∧ filter is_completion_request (history s')
    = filter is_completion_request (history s)
      ++ [chat_completions_create e
            (system_instruction
             :: map (λ m, {| param_role := role m; param_content := content m |})
                    log)].
Proof.
  intros He Hc. cbn zeta. rewrite (step_submit_form _ _ _ _ He Hc). proj.
  rewrite lookup_insert_eq, filter_app. done.
Qed.

Lemma submit_publishes_and_persists_witness :
  engine (cells ready_world) = Some 1
  ∧ messages (cells (world
      (step {| world := ready_world; pending := []; history := [] |}
            (submit_form "77aa" "2024-05-01T10:01:00.000Z"))))
    = [hi; hello;
       {| id := "77aa"; role := user; content := "how are you?";
          sentAt := "2024-05-01T10:01:00.000Z" |}].
Proof.
  split; [reflexivity|].
  exact (proj1 (submit_publishes_and_persists
                  {| world := ready_world; pending := []; history := [] |} 1
                  "77aa" "2024-05-01T10:01:00.000Z" eq_refl eq_refl)).
Defined.

(** X2: a turn from the form to the reply.  When the form is submitted on
    the chat screen and the completion it asked for is fulfilled, the
    published log is the log before followed by the user message and by the
    reply made of the first choice, in this order; the store holds that log,
    the busy flag is down again, and the handlers that waited before still
    wait. *)
Theorem turn_round_trip (s : Sys) (e : MLCEngine) (uuid now uuid' now' : string)
    (choice : Choice) (others : list Choice) :
  engine (cells (world s)) = Some e →
  messagesChanged (world s) = false →
  let env := cells (world s) in
  let log := messages env
             ++ [user_message env uuid now; reply_message choice uuid' now'] in
  let s' := run s [submit_form uuid now;
                   completion_settles (length (pending s))
                     (Fulfilled {| first_choice := choice;
                                   other_choices := others |}) uuid' now'] in
  messages (cells (world s')) = log
  ∧ localStorage (world s') !! messagesRepoKey = Some (Stringified log)
  ∧ processingMsg (cells (world s')) = false
  ∧ msgInput (cells (world s')) = ""
  ∧ pending s' = pending s.
Proof.
  intros He Hc. cbn zeta. unfold run. cbn [foldl].
  rewrite (step_submit_form _ _ _ _ He Hc).
  unfold step. proj.
  rewrite lookup_app_r, Nat.sub_diag by done. cbn [lookup list_lookup].
  rewrite (exec_run _ _ _ _ _ _ _ (processMsg_settled_reply _ _ _ _ _)).
  rewrite commit_changed_nonempty; proj;
    [|done|by destruct (messages _)].
  rewrite lookup_insert_eq, <- app_assoc. cbn [app].
  repeat split.
  by rewrite app_nil_r, delete_middle, app_nil_r.
Qed.

Lemma turn_round_trip_witness :
  engine (cells ready_world) = Some 1
  ∧ messages (cells (world
      (run {| world := ready_world; pending := []; history := [] |}
         [submit_form "77aa" "2024-05-01T10:01:00.000Z";
          completion_settles 0
            (Fulfilled
               {| first_choice :=
                    {| message := {| choice_role := assistant;
                                     choice_content := Some "Fine." |} |};
                  other_choices := [] |})
            "77ab" "2024-05-01T10:01:03.000Z"])))
    = [hi; hello;
       {| id := "77aa"; role := user; content := "how are you?";
          sentAt := "2024-05-01T10:01:00.000Z" |};
       {| id := "77ab"; role := assistant; content := "Fine.";
          sentAt := "2024-05-01T10:01:03.000Z" |}].
Proof.
  split; [reflexivity|].
  exact (proj1 (turn_round_trip
                  {| world := ready_world; pending := []; history := [] |} 1
                  "77aa" "2024-05-01T10:01:00.000Z"
                  "77ab" "2024-05-01T10:01:03.000Z"
                  {| message := {| choice_role := assistant;
                                   choice_content := Some "Fine." |} |} []
                  eq_refl eq_refl)).
Defined.

(** ** Beyond the claims: the store and the reload of the page *)

Lemma bind_run {A B} (c : M A) (k : A → M B) (w w1 w2 : World) (a : A) (b : B)
    (t1 t2 : list Call) :
  c w = (a, w1, t1) → k a w1 = (b, w2, t2) →
  bind c k w = (b, w2, t1 ++ t2).
Proof. intros H1 H2. unfold bind. by rewrite H1, H2. Qed.

Lemma clearStorage_settled_world (u : unit) (w : World) :
  clearStorage_settled (Fulfilled u) w
  = (tt, {| cells := initial_cells; messagesChanged := true;
            localStorage := delete messagesRepoKey (localStorage w);
            sessionStorage := delete loadEngineProgressKey (sessionStorage w) |},
     [localStorage_removeItem messagesRepoKey;
      sessionStorage_removeItem loadEngineProgressKey]).
Proof. fields w. by eval_M. Qed.

Lemma step_persisted (s : Sys) (ev : Event) :
  persisted s → persisted (step s ev).
Proof.
  intros Hp. destruct (completes_reset s ev) eqn:Hr.
  - destruct ev as [| | | |i [u|]| | |]; try done.
    unfold completes_reset in Hr. unfold step.
    destruct (pending s !! i) as [[| |]|]; [done| |done|done].
    unfold persisted.
    rewrite (exec_run _ _ _ _ _ _ _ (clearStorage_settled_world _ _)).
    rewrite commit_changed_empty by done. by proj.
  - by apply step_persisted_grows.
Qed.

Lemma run_persisted (s : Sys) (evs : list Event) :
  persisted s → persisted (run s evs).
Proof.
  revert s. induction evs as [|ev evs IH]; intros s Hp; [done|].
  cbn [run foldl]. by apply IH, step_persisted.
Qed.

Lemma page_load_persisted (ls : gmap string Item) (ss : gmap string string) :
  persisted (page_load ls ss).
Proof. rewrite page_load_world. unfold persisted. by proj. Qed.

(** X3: the store follows the published log.  After any events since the
    load of the page, resets and failures included, the renders are up to
    date and the published log is empty or is the log that the store
    holds. *)
Theorem store_follows_log (ls : gmap string Item) (ss : gmap string string)
    (evs : list Event) :
  let w := world (run (page_load ls ss) evs) in
  messagesChanged w = false
  ∧ (messages (cells w) = [] ∨ load w = Some (messages (cells w))).
Proof.
  cbn zeta.
  destruct (run_persisted _ evs (page_load_persisted ls ss)) as [Hc Hp].
  split; [done|].
  destruct (decide (messages (cells (world (run (page_load ls ss) evs))) = []))
    as [|Hne]; [by left|right].
  unfold load. by rewrite (Hp Hne).
Qed.

(** The page is loaded, Start is clicked and the load settles. *)
Lemma page_started (ls : gmap string Item) (ss : gmap string string)
    (e : Settled MLCEngine) :
  let s := run (page_load ls ss) [click_Start; load_settles 0 e] in
  messages (cells (world s)) = default [] (JSON_parse_or_empty (ls !! messagesRepoKey))
  ∧ engine (cells (world s))
    = match e with Fulfilled e' => Some e' | Rejected _ => None end
  ∧ engineLoadingProgress (cells (world s)) = ""
  ∧ pending s = []
  ∧ guard_set (world s) = false
  ∧ messagesChanged (world s) = false
  ∧ localStorage (world s) = ls.
Proof.
  cbn zeta. unfold run. rewrite page_load_world. cbn [foldl].
  rewrite step_click_Start_passes; proj;
    [| unfold guard_set; proj; by rewrite lookup_delete_eq | done].
  unfold step. proj. cbn [lookup list_lookup].
  erewrite exec_run by (by apply prepareEngine_settled_stale).
  unfold load, guard_set. proj.
  destruct (ls !! messagesRepoKey) as [[|[|m l]]|] eqn:Hls;
    cbn [JSON_parse_or_empty default from_option];
    first [ rewrite commit_changed_empty by done
          | rewrite commit_changed_nonempty by done
          | rewrite commit_clean by done ];
    proj; rewrite lookup_delete_eq; cbn [initial_cells engine
      engineLoadingProgress]; repeat split; try (by destruct e).
  by apply insert_id.
Qed.

(** X4: the conversation survives a reload.  When the published log is not
    empty after any events since the load of the page, loading the page
    again on the storages as they are and starting the engine publishes the
    same log, whether that load is fulfilled or rejected. *)
Theorem conversation_survives_reload (ls : gmap string Item)
    (ss : gmap string string) (evs : list Event) (e : Settled MLCEngine) :
  let w := world (run (page_load ls ss) evs) in
  messages (cells w) ≠ [] →
  messages (cells (world
    (run (page_load (localStorage w) (sessionStorage w))
         [click_Start; load_settles 0 e])))
  = messages (cells w).
Proof.
  cbn zeta. intros Hne.
  destruct (run_persisted _ evs (page_load_persisted ls ss)) as [_ Hp].
  rewrite (proj1 (page_started _ _ e)), (Hp Hne). done.
Qed.

Lemma conversation_survives_reload_witness :
  messages (cells (world (run (page_load ∅ ∅)
     [click_Start; load_settles 0 (Fulfilled 1); input_changes "hi";
      submit_form "0b7e" "2024-05-01T10:00:00.000Z"]))) ≠ []
  ∧ messages (cells (world
      (run (page_load
              (localStorage (world (run (page_load ∅ ∅)
                 [click_Start; load_settles 0 (Fulfilled 1); input_changes "hi";
                  submit_form "0b7e" "2024-05-01T10:00:00.000Z"])))
              (sessionStorage (world (run (page_load ∅ ∅)
                 [click_Start; load_settles 0 (Fulfilled 1); input_changes "hi";
                  submit_form "0b7e" "2024-05-01T10:00:00.000Z"]))))
           [click_Start; load_settles 0 (Rejected "no WebGPU")])))
    = messages (cells (world (run (page_load ∅ ∅)
        [click_Start; load_settles 0 (Fulfilled 1); input_changes "hi";
         submit_form "0b7e" "2024-05-01T10:00:00.000Z"]))).
Proof.
  split; [vm_compute; discriminate|].
  apply (conversation_survives_reload ∅ ∅
           [click_Start; load_settles 0 (Fulfilled 1); input_changes "hi";
            submit_form "0b7e" "2024-05-01T10:00:00.000Z"]).
  vm_compute. discriminate.
Defined.

(** ** Beyond the claims: starting, failing and starting again *)

(** X5: no guard is inherited from an earlier page.  Whatever the session
    storage holds when the page is loaded, a guard left by a load that never
    settled included, the first click on Start passes the guard and sends
    one load request for the model of [App]. *)
Theorem first_start_not_blocked (ls : gmap string Item)
    (ss : gmap string string) :
  let s := step (page_load ls ss) click_Start in
  history s
  = [sessionStorage_removeItem loadEngineProgressKey;
     sessionStorage_getItem loadEngineProgressKey;
     sessionStorage_setItem loadEngineProgressKey "true";
     CreateMLCEngine modelId]
  ∧ pending s = [prepareEngine_awaiting initial_cells]
  ∧ guard_set (world s) = true
  ∧ on_screen (page_load ls ss) click_Start = true.
Proof.
  cbn zeta. rewrite page_load_world.
  rewrite step_click_Start_passes; proj;
    [| unfold guard_set; proj; by rewrite lookup_delete_eq | done].
  unfold guard_set. proj. by rewrite lookup_insert_eq.
Qed.

Lemma step_progress_report (s : Sys) (i : nat) (env : Render) (text : string) :
  pending s !! i = Some (prepareEngine_awaiting env) →
  messagesChanged (world s) = false →
  step s (progress_report i text)
  = {| world :=
         {| cells := {| engine := engine (cells (world s));
                        engineLoadingProgress := text;
                        msgInput := msgInput (cells (world s));
                        messages := messages (cells (world s));
                        processingMsg := processingMsg (cells (world s)) |};
            messagesChanged := false;
            localStorage := localStorage (world s);
            sessionStorage := sessionStorage (world s) |};
       pending := pending s;
       history := history s |}.
Proof.
  intros Hi Hc. unfold step. rewrite Hi.
  assert (initProgressCallback text (world s)
          = (tt, {| cells := {| engine := engine (cells (world s));
                                engineLoadingProgress := text;
                                msgInput := msgInput (cells (world s));
                                messages := messages (cells (world s));
                                processingMsg := processingMsg (cells (world s)) |};
                    messagesChanged := false;
                    localStorage := localStorage (world s);
                    sessionStorage := sessionStorage (world s) |}, [])) as H.
  { fields (world s). cbn in Hc. subst. by eval_M. }
  rewrite (exec_run _ _ _ _ _ _ _ H), commit_clean by done.
  proj. by rewrite !app_nil_r.
Qed.

(** A load that was started from a screen with Start settles. *)
Lemma step_load_settles_stale (s : Sys) (i : nat) (env : Render)
    (e : Settled MLCEngine) :
  pending s !! i = Some (prepareEngine_awaiting env) →
  engine env = None →
  let s' := step s (load_settles i e) in
  cells (world s')
  = {| engine := match e with
                 | Fulfilled e' => Some e'
                 | Rejected _ => engine (cells (world s))
                 end;
       engineLoadingProgress := match e with
                                | Fulfilled _ => ""
                                | Rejected _ =>
                                    engineLoadingProgress (cells (world s))
                                end;
       msgInput := msgInput (cells (world s));
       messages := match load (world s) with
                   | Some l => l
                   | None => messages (cells (world s))
                   end;
       processingMsg := processingMsg (cells (world s)) |}
  ∧ sessionStorage (world s')
    = delete loadEngineProgressKey (sessionStorage (world s))
  ∧ messagesChanged (world s') = false
  ∧ pending s' = delete i (pending s).
Proof.
  intros Hi He. cbn zeta. unfold step. rewrite Hi.
  rewrite (exec_run _ _ _ _ _ _ _ (prepareEngine_settled_stale _ e _ He)).
  proj. rewrite app_nil_r.
  match goal with
  | |- context [commit ?w] =>
      destruct (commit_frame w) as (Hcells & Hsess & Hch)
  end.
  cbn zeta in Hcells, Hsess, Hch. rewrite Hcells, Hsess, Hch. by proj.
Qed.

(** Progress reports of one load, one after the other: the last text stays. *)
Lemma run_progress_reports (texts : list string) (s : Sys) (env : Render) :
  pending s !! 0%nat = Some (prepareEngine_awaiting env) →
  messagesChanged (world s) = false →
  run s (map (progress_report 0) texts)
  = {| world :=
         {| cells := {| engine := engine (cells (world s));
                        engineLoadingProgress :=
                          default (engineLoadingProgress (cells (world s)))
                                  (last texts);
                        msgInput := msgInput (cells (world s));
                        messages := messages (cells (world s));
                        processingMsg := processingMsg (cells (world s)) |};
            messagesChanged := false;
            localStorage := localStorage (world s);
            sessionStorage := sessionStorage (world s) |};
       pending := pending s;
       history := history s |}.
Proof.
  revert s. induction texts as [|text texts IH]; intros s Hi Hc.
  - destruct s as [[[? ? ? ? ?] ? ? ?] ? ?]. cbn in Hc. by subst.
  - cbn [map run foldl].
    rewrite (step_progress_report _ _ _ _ Hi Hc).
    change (foldl step ?s0 ?l) with (run s0 l).
    rewrite IH by done. proj.
    rewrite last_cons. by destruct (last texts).
Qed.

(** X6: a load that fails while a progress text is shown leaves a screen
    without a control.  After any progress reports of which the last is not
    empty, a rejected load leaves the handle unset and the guard removed,
    but the progress text is still there, so the screen shows it instead of
    Start; no handler waits, and no event can come from the page. *)
Theorem failed_load_after_progress_is_stuck (ls : gmap string Item)
    (ss : gmap string string) (texts : list string) (text err : string)
    (ev : Event) :
  last texts = Some text →
  text ≠ "" →
  let s := run (page_load ls ss)
             (click_Start :: map (progress_report 0) texts
              ++ [load_settles 0 (Rejected err)]) in
  engine (cells (world s)) = None
  ∧ engineLoadingProgress (cells (world s)) = text
  ∧ guard_set (world s) = false
  ∧ pending s = []
  ∧ on_screen s ev = false.
Proof.
  intros Hlast Ht. cbn zeta. unfold run. rewrite page_load_world.
  cbn [foldl]. rewrite foldl_app.
  rewrite step_click_Start_passes; proj;
    [| unfold guard_set; proj; by rewrite lookup_delete_eq | done].
  change (foldl step ?s0 (map ?f ?l)) with (run s0 (map f l)).
  rewrite (run_progress_reports texts _ initial_cells) by done.
  proj. rewrite Hlast. cbn [foldl default from_option].
  match goal with
  | |- context [step ?s0 (load_settles 0 ?e)] =>
      destruct (step_load_settles_stale s0 0 initial_cells e eq_refl eq_refl)
        as (Hcells & Hsess & _ & Hpend);
      set (s := step s0 (load_settles 0 e)) in *; clearbody s
  end.
  cbn in Hpend, Hcells, Hsess. unfold guard_set, on_screen.
  rewrite Hcells, Hsess, Hpend.
  proj. rewrite lookup_delete_eq.
  repeat split.
  destruct ev; cbn [lookup list_lookup]; try done.
  by rewrite (bool_decide_eq_false_2 _ Ht).
Qed.

Lemma failed_load_after_progress_is_stuck_witness :
  last ["Start to fetch params"; ""; "Fetching param cache[0/24]"]
    = Some "Fetching param cache[0/24]"
  ∧ "Fetching param cache[0/24]" ≠ ""
  ∧ on_screen
      (run (page_load ∅ ∅)
         (click_Start
          :: map (progress_report 0)
               ["Start to fetch params"; ""; "Fetching param cache[0/24]"]
          ++ [load_settles 0 (Rejected "QuotaExceededError")]))
      click_Start = false.
Proof.
  split; [reflexivity|]. split; [discriminate|].
  apply (failed_load_after_progress_is_stuck ∅ ∅
           ["Start to fetch params"; ""; "Fetching param cache[0/24]"]
           "Fetching param cache[0/24]" "QuotaExceededError" click_Start);
    [reflexivity | discriminate].
Defined.

(** The other side: when the last report is empty, the text is gone and a
    rejected load brings Start back. *)
Lemma failed_load_after_empty_report_shows_start (ls : gmap string Item)
    (ss : gmap string string) (texts : list string) (err : string) :
  last texts = Some "" →
  on_screen
    (run (page_load ls ss)
       (click_Start :: map (progress_report 0) texts
        ++ [load_settles 0 (Rejected err)]))
    click_Start = true.
Proof.
  intros Hlast. unfold run. rewrite page_load_world.
  cbn [foldl]. rewrite foldl_app.
  rewrite step_click_Start_passes; proj;
    [| unfold guard_set; proj; by rewrite lookup_delete_eq | done].
  change (foldl step ?s0 (map ?f ?l)) with (run s0 (map f l)).
  rewrite (run_progress_reports texts _ initial_cells) by done.
  proj. rewrite Hlast. cbn [foldl default from_option].
  match goal with
  | |- context [step ?s0 (load_settles 0 ?e)] =>
      destruct (step_load_settles_stale s0 0 initial_cells e eq_refl eq_refl)
        as (Hcells & _);
      set (s := step s0 (load_settles 0 e)) in *; clearbody s
  end.
  cbn in Hcells. unfold on_screen. by rewrite Hcells.
Qed.

(** X7: after a reset the engine can be started again.  When the purge of a
    waiting [clearStorage] is fulfilled, the screen shows Start, and a click
    on it passes the guard and sends a load request, whatever the state and
    the storages before. *)
Theorem start_after_reset (s : Sys) (i : nat) (u : unit) :
  pending s !! i = Some clearStorage_awaiting →
  let s' := step s (purge_settles i (Fulfilled u)) in
  cells (world s') = initial_cells
  ∧ on_screen s' click_Start = true
  ∧ history (step s' click_Start)
    = history s'
      ++ [sessionStorage_getItem loadEngineProgressKey;
          sessionStorage_setItem loadEngineProgressKey "true";
          CreateMLCEngine modelId]
  ∧ pending (step s' click_Start)
    = delete i (pending s) ++ [prepareEngine_awaiting initial_cells].
Proof.
  intros Hi. cbn zeta.
  assert (step s (purge_settles i (Fulfilled u))
          = {| world :=
                 {| cells := initial_cells; messagesChanged := false;
                    localStorage := delete messagesRepoKey (localStorage (world s));
                    sessionStorage :=
                      delete loadEngineProgressKey (sessionStorage (world s)) |};
               pending := delete i (pending s);
               history := history s
                          ++ [localStorage_removeItem messagesRepoKey;
                              sessionStorage_removeItem loadEngineProgressKey] |})
    as ->.
  { unfold step. rewrite Hi.
    rewrite (exec_run _ _ _ _ _ _ _ (clearStorage_settled_world _ _)).
    rewrite commit_changed_empty by done. proj. by rewrite !app_nil_r. }
  rewrite step_click_Start_passes; proj;
    [| unfold guard_set; proj; by rewrite lookup_delete_eq | done].
  done.
Qed.

Lemma start_after_reset_witness :
  pending (run (page_load ∅ ∅)
             [click_Start; load_settles 0 (Fulfilled 1); click_Delete_data])
    !! 0%nat = Some clearStorage_awaiting
  ∧ on_screen
      (step (run (page_load ∅ ∅)
               [click_Start; load_settles 0 (Fulfilled 1); click_Delete_data])
            (purge_settles 0 (Fulfilled tt)))
      click_Start = true.
Proof.
  split; [reflexivity|].
  apply (start_after_reset
           (run (page_load ∅ ∅)
              [click_Start; load_settles 0 (Fulfilled 1); click_Delete_data])
           0 tt).
  reflexivity.
Defined.

(** X8: a store that does not parse is treated as no log, and the next
    message overwrites it.  With such a text in the store, the engine
    starts, nothing is published and the text stays; the first form
    submitted then publishes the one user message and stores it in place of
    the text. *)
Theorem unparsable_store_is_overwritten (ls : gmap string Item)
    (ss : gmap string string) (e : MLCEngine) (value uuid now : string) :
  let s := run (page_load (<[messagesRepoKey := Unparsable]> ls) ss)
             [click_Start; load_settles 0 (Fulfilled e)] in
  let s' := run s [input_changes value; submit_form uuid now] in
  let m := {| id := uuid; role := user; content := value; sentAt := now |} in
  messages (cells (world s)) = []
  ∧ engine (cells (world s)) = Some e
  ∧ localStorage (world s) !! messagesRepoKey = Some Unparsable
  ∧ filter is_load_request (history s) = [CreateMLCEngine modelId]
  ∧ messages (cells (world s')) = [m]
  ∧ localStorage (world s') !! messagesRepoKey = Some (Stringified [m]).
Proof.
  cbn zeta.
  pose proof (page_started (<[messagesRepoKey := Unparsable]> ls) ss
                (Fulfilled e)) as H.
  cbn zeta in H.
  set (s := run (page_load _ ss) [click_Start; load_settles 0 (Fulfilled e)])
    in *.
  destruct H as (Hm & He & Hp & Hpend & Hg & Hc & Hl).
  rewrite lookup_insert_eq in Hm.
  cbn [JSON_parse_or_empty default from_option] in Hm.
  assert (filter is_load_request (history s) = [CreateMLCEngine modelId]) as Hh.
  { subst s. unfold run. rewrite page_load_world. cbn [foldl].
    rewrite step_click_Start_passes; proj;
      [| unfold guard_set; proj; by rewrite lookup_delete_eq | done].
    unfold step. proj. cbn [lookup list_lookup].
    erewrite exec_run by (by apply prepareEngine_settled_stale).
    unfold load. proj. rewrite lookup_insert_eq. cbn [JSON_parse_or_empty].
    rewrite commit_clean by done. by cbn. }
  clearbody s.
  rewrite Hm, He, Hl, lookup_insert_eq. do 4 (split; [done|]).
  unfold run. cbn [foldl].
  assert (step s (input_changes value)
          = {| world := {| cells := {| engine := Some e;
                                       engineLoadingProgress := "";
                                       msgInput := value; messages := [];
                                       processingMsg :=
                                         processingMsg (cells (world s)) |};
                           messagesChanged := false;
                           localStorage := localStorage (world s);
                           sessionStorage := sessionStorage (world s) |};
               pending := pending s; history := history s |}) as ->.
  { unfold step.
    assert (onChange value (world s)
            = (tt, {| cells := {| engine := Some e;
                                  engineLoadingProgress := "";
                                  msgInput := value; messages := [];
                                  processingMsg :=
                                    processingMsg (cells (world s)) |};
                      messagesChanged := false;
                      localStorage := localStorage (world s);
                      sessionStorage := sessionStorage (world s) |}, [])) as H.
    { fields (world s). cbn in Hm, He, Hp, Hc. subst. by eval_M. }
    rewrite (exec_run _ _ _ _ _ _ _ H), commit_clean by done.
    proj. by rewrite !app_nil_r. }
  rewrite (step_submit_form _ e) by done. proj.
  by rewrite lookup_insert_eq.
Qed.

(** X9: a reply that comes after a reset undoes part of it.  When a turn is
    in flight while [clearStorage] runs to its end and the completion is
    fulfilled afterwards, the reply is appended to the emptied log: the
    published log and the store hold the reply alone, on a screen without
    an engine. *)
Theorem late_reply_after_reset (w : World) (choice : Choice)
    (others : list Choice) (uuid now : string) :
  let r := (reset ;;
            processMsg_settled
              (Fulfilled {| first_choice := choice; other_choices := others |})
              uuid now ;;
            commit) w in
  messages (cells (after r)) = [reply_message choice uuid now]
  ∧ localStorage (after r) !! messagesRepoKey
    = Some (Stringified [reply_message choice uuid now])
  ∧ load (after r) = Some [reply_message choice uuid now]
  ∧ engine (cells (after r)) = None.
Proof.
  cbn zeta. unfold load.
  erewrite bind_run;
    [| apply reset_world
     | erewrite bind_run;
         [reflexivity
         | apply processMsg_settled_reply
         | by apply commit_changed_nonempty]].
  proj. cbn [initial_cells messages engine app].
  by rewrite lookup_insert_eq.
Qed.

(** ** Beyond the claims: one turn at a time *)

Lemma completions_delete (l : list Task) (i : nat) (t : Task) :
  l !! i = Some t →
  length (filter is_completion l)
  = ((if is_completion t then 1 else 0)
     + length (filter is_completion (delete i l)))%nat.
Proof.
  revert i. induction l as [|a l IH]; intros [|i] H; try done.
  - cbn in H. injection H as ->. change (delete 0 (t :: l)) with l.
    rewrite filter_cons. by destruct (is_completion t).
  - cbn in H. change (delete (S i) (a :: l)) with (a :: delete i l).
    rewrite !filter_cons. specialize (IH i H).
    destruct (decide (is_completion a)); cbn [length];
      destruct (is_completion t); lia.
Qed.

Lemma completions_singleton (t : Task) :
  length (filter is_completion [t]) = (if is_completion t then 1 else 0)%nat.
Proof. by destruct t. Qed.

Lemma processMsg_settled_busy (reply : Settled ChatCompletion)
    (uuid now : string) (w : World) :
  processingMsg (cells (after (processMsg_settled reply uuid now w))) = false.
Proof.
  unfold processMsg_settled. fields w.
  destruct reply as [[c cs]|err]; by eval_M.
Qed.

Lemma one_turn_exec {A} (c : M A) (spawned : A → list Task)
    (rest : list Task) (s : Sys) :
  length (filter is_completion (rest ++ spawned (result (c (world s)))))
  = (if processingMsg (cells (after (c (world s)))) then 1 else 0)%nat →
  Forall started_without_engine (rest ++ spawned (result (c (world s)))) →
  one_turn (exec c spawned rest s).
Proof.
  intros Hn Hf. unfold one_turn, completions_in_flight.
  rewrite exec_cells, (proj2 (exec_session _ _ _ _)).
  by rewrite (proj1 (proj2 (exec_world _ _ _ _))).
Qed.

Lemma step_one_turn (s : Sys) (ev : Event) :
  one_turn s →
  on_screen s ev = true →
  completes_reset s ev = false →
  one_turn (step s ev).
Proof.
  intros (Hc & Hn & Hf) Hon Hr. unfold completions_in_flight in Hn.
  destruct ev as [|i text|i e| |i r|uuid now|i reply uuid now|value].
  - destruct (guard_set (world s)) eqn:Hg.
    + rewrite step_click_Start_blocked by done. by destruct s.
    + rewrite step_click_Start_passes by done.
      unfold one_turn, completions_in_flight. proj.
      rewrite filter_app, length_app, Hn, completions_singleton.
      split; [done|]. split.
      * cbn. lia.
      * apply Forall_app. split; [done|]. apply Forall_singleton.
        unfold on_screen in Hon. cbn [started_without_engine].
        by apply andb_true_iff in Hon as [?%bool_decide_eq_true _].
  - unfold on_screen in Hon.
    destruct (pending s !! i) as [[env| |]|] eqn:Hi; try done.
    rewrite (step_progress_report _ _ _ _ Hi Hc).
    unfold one_turn, completions_in_flight. by proj.
  - unfold on_screen in Hon.
    destruct (pending s !! i) as [[env| |]|] eqn:Hi; try done.
    assert (engine env = None) as He
      by apply (proj1 (Forall_lookup _ _) Hf _ _ Hi).
    destruct (step_load_settles_stale s i env e Hi He)
      as (Hcells & _ & Hch & Hpend).
    cbn zeta in *. unfold one_turn, completions_in_flight.
    rewrite Hcells, Hch, Hpend. proj.
    pose proof (completions_delete _ _ _ Hi) as Hd. cbn [is_completion] in Hd.
    split; [done|]. split; [lia|]. by apply Forall_delete.
  - unfold step. apply one_turn_exec.
    + rewrite filter_app, length_app, completions_singleton.
      fields (world s). cbn in Hn. eval_M. cbn. lia.
    + apply Forall_app. split; [done|]. fields (world s). eval_M.
      by apply Forall_singleton.
  - unfold on_screen in Hon. unfold completes_reset in Hr.
    destruct (pending s !! i) as [[env| |]|] eqn:Hi; try done.
    destruct r as [u|err]; [done|].
    unfold step. rewrite Hi. apply one_turn_exec.
    + rewrite app_nil_r.
      pose proof (completions_delete _ _ _ Hi) as Hd.
      cbn [is_completion] in Hd. fields (world s). cbn in Hn. eval_M. lia.
    + rewrite app_nil_r. by apply Forall_delete.
  - unfold on_screen in Hon.
    apply andb_true_iff in Hon as [[He Hb]%andb_true_iff _].
    apply bool_decide_eq_true in He. apply negb_true_iff in Hb.
    destruct (engine (cells (world s))) as [e|] eqn:Heng; [|done].
    rewrite (step_submit_form _ _ _ _ Heng Hc).
    unfold one_turn, completions_in_flight. proj.
    rewrite filter_app, length_app, Hn, Hb, completions_singleton.
    split; [done|]. split; [done|].
    apply Forall_app. split; [done|]. by apply Forall_singleton.
  - unfold on_screen in Hon.
    destruct (pending s !! i) as [[env| |]|] eqn:Hi; try done.
    unfold step. rewrite Hi. apply one_turn_exec.
    + rewrite app_nil_r, processMsg_settled_busy.
      pose proof (completions_delete _ _ _ Hi) as Hd.
      cbn [is_completion] in Hd.
      destruct (processingMsg (cells (world s))); lia.
    + rewrite app_nil_r. by apply Forall_delete.
  - unfold step. apply one_turn_exec.
    + rewrite app_nil_r. unfold onChange. fields (world s). cbn in Hn.
      by eval_M.
    + by rewrite app_nil_r.
Qed.

(** X10: the disabled form keeps the turns apart.  In every run that the
    screens allow from the load of the page and in which no reset ends, the
    busy flag is up exactly while a completion is in flight, and at most one
    is: the form cannot be submitted before the reply of the turn before has
    come. *)
Theorem turns_do_not_overlap (ls : gmap string Item) (ss : gmap string string)
    (evs : list Event) :
  realizable (page_load ls ss) evs = true →
  no_reset (page_load ls ss) evs = true →
  let s := run (page_load ls ss) evs in
  completions_in_flight s
  = (if processingMsg (cells (world s)) then 1 else 0)%nat
  ∧ (completions_in_flight s ≤ 1)%nat.
Proof.
  intros Hre Hno. cbn zeta.
  assert (one_turn (run (page_load ls ss) evs)) as (_ & Hn & _).
  { assert (one_turn (page_load ls ss)) as H0.
    { rewrite page_load_world. unfold one_turn, completions_in_flight.
      by proj. }
    revert H0 Hre Hno. generalize (page_load ls ss). clear.
    induction evs as [|ev evs IH]; intros s H0 Hre Hno; [done|].
    cbn [realizable no_reset] in Hre, Hno.
    apply andb_true_iff in Hre as [Hon Hre].
    apply andb_true_iff in Hno as [Hr%negb_true_iff Hno].
    cbn [run foldl]. apply IH; [|done|done]. by apply step_one_turn. }
  split; [done|]. rewrite Hn. destruct (processingMsg _); lia.
Qed.

Lemma turns_do_not_overlap_witness :
  realizable (page_load ∅ ∅)
    [click_Start; load_settles 0 (Fulfilled 1); input_changes "hi";
     submit_form "0b7e" "2024-05-01T10:00:00.000Z"] = true
  ∧ (completions_in_flight
       (run (page_load ∅ ∅)
          [click_Start; load_settles 0 (Fulfilled 1); input_changes "hi";
           submit_form "0b7e" "2024-05-01T10:00:00.000Z"]) ≤ 1)%nat.
Proof.
  split; [vm_compute; reflexivity|].
  apply (turns_do_not_overlap ∅ ∅
           [click_Start; load_settles 0 (Fulfilled 1); input_changes "hi";
            submit_form "0b7e" "2024-05-01T10:00:00.000Z"]);
    vm_compute; reflexivity.
Defined.

(** ** Beyond the claims: what [App] never does *)

Lemma other_items_refl (w : World) : other_items w w.
Proof. by split. Qed.

Lemma other_items_trans (w1 w2 w3 : World) :
  other_items w1 w2 → other_items w2 w3 → other_items w1 w3.
Proof.
  intros [Hl Hs] [Hl' Hs']. split; intros k Hk.
  - by rewrite Hl', Hl.
  - by rewrite Hs', Hs.
Qed.

Lemma other_items_storages (w w' : World) :
  localStorage w' = localStorage w ∨
  localStorage w' = delete messagesRepoKey (localStorage w) →
  sessionStorage w' = sessionStorage w ∨
  sessionStorage w' = delete loadEngineProgressKey (sessionStorage w) ∨
  sessionStorage w' = <[loadEngineProgressKey := "true"]> (sessionStorage w) →
  other_items w w'.
Proof.
  intros Hl Hs. split; intros k Hk.
  - destruct Hl as [-> | ->]; [done|]. by rewrite lookup_delete_ne.
  - destruct Hs as [-> | [-> | ->]]; [done| |].
    + by rewrite lookup_delete_ne.
    + by rewrite lookup_insert_ne.
Qed.

Lemma commit_other_items (w : World) : other_items w (after (commit w)).
Proof.
  destruct (messagesChanged w) eqn:Hc.
  - destruct (decide (messages (cells w) = [])) as [He|Hne].
    + rewrite commit_changed_empty by done. by split.
    + rewrite commit_changed_nonempty by done. split; intros k Hk; proj;
        [by rewrite lookup_insert_ne | done].
  - rewrite commit_clean by done. by split.
Qed.

Lemma sendMsg_local (env : Render) (uuid now : string) (w : World) :
  localStorage (after (sendMsg env uuid now w)) = localStorage w.
Proof.
  unfold sendMsg. fields w. destruct env as [[e|] ? ? ? ?]; by eval_M.
Qed.

Lemma processMsg_settled_local (reply : Settled ChatCompletion)
    (uuid now : string) (w : World) :
  localStorage (after (processMsg_settled reply uuid now w)) = localStorage w.
Proof.
  unfold processMsg_settled. fields w.
  destruct reply as [[c cs]|err]; by eval_M.
Qed.

Lemma step_other_items (s : Sys) (ev : Event) :
  other_items (world s) (world (step s ev)).
Proof.
  assert (∀ {A} (c : M A) sp rest,
            other_items (world s) (after (c (world s))) →
            other_items (world s) (world (exec c sp rest s))) as Hexec.
  { intros A c sp rest H. rewrite (proj1 (exec_world _ _ _ _)).
    eapply other_items_trans; [done|]. apply commit_other_items. }
  destruct ev as [|i text|i e| |i r|uuid now|i reply uuid now|value];
    unfold step.
  - apply Hexec. destruct (guard_set (world s)) eqn:Hg.
    + rewrite prepareEngine_blocked by done. apply other_items_refl.
    + rewrite prepareEngine_passes by done.
      apply other_items_storages; proj; auto.
  - destruct (pending s !! i) as [[env| |]|]; try apply other_items_refl.
    apply Hexec, other_items_storages;
      unfold initProgressCallback; fields (world s); eval_M; auto.
  - destruct (pending s !! i) as [[env| |]|]; try apply other_items_refl.
    apply Hexec, other_items_storages.
    + left. apply prepareEngine_settled_log.
    + right. left. apply prepareEngine_settled_session.
  - apply Hexec, other_items_storages; fields (world s); eval_M; auto.
  - destruct (pending s !! i) as [[env| |]|]; try apply other_items_refl.
    apply Hexec, other_items_storages;
      fields (world s); destruct r as [[]|err]; eval_M; auto.
  - apply Hexec, other_items_storages; left;
      [apply sendMsg_local | apply sendMsg_session].
  - destruct (pending s !! i) as [[env| |]|]; try apply other_items_refl.
    apply Hexec, other_items_storages; left;
      [apply processMsg_settled_local | apply processMsg_settled_session].
  - apply Hexec, other_items_storages;
      unfold onChange; fields (world s); eval_M; auto.
Qed.

(** X11: [App] keeps to its two keys.  Along any events and from any state,
    every item of [localStorage] under a key other than the key of the log,
    and every item of [sessionStorage] under a key other than the key of the
    guard, is the one that was there: Delete data removes nothing else. *)
Theorem other_keys_untouched (s : Sys) (evs : list Event) :
  other_items (world s) (world (run s evs)).
Proof.
  revert s. induction evs as [|ev evs IH]; intros s;
    [apply other_items_refl|].
  cbn [run foldl]. eapply other_items_trans; [apply step_other_items|].
  apply IH.
Qed.

Lemma commit_calls_ok (w : World) : Forall runtime_call_ok (calls (commit w)).
Proof.
  destruct (messagesChanged w) eqn:Hc.
  - destruct (decide (messages (cells w) = [])) as [He|Hne].
    + by rewrite commit_changed_empty.
    + rewrite commit_changed_nonempty by done. by repeat constructor.
  - by rewrite commit_clean.
Qed.

Lemma prepareEngine_settled_calls_ok (env : Render) (e : Settled MLCEngine)
    (w : World) :
  Forall runtime_call_ok (calls (prepareEngine_settled env e w)).
Proof. settled_cases env e w; by repeat constructor. Qed.

Lemma step_calls_ok (s : Sys) (ev : Event) :
  Forall runtime_call_ok (history s) →
  Forall runtime_call_ok (history (step s ev)).
Proof.
  intros H.
  assert (∀ {A} (c : M A) sp rest,
            Forall runtime_call_ok (calls (c (world s))) →
            Forall runtime_call_ok (history (exec c sp rest s))) as Hexec.
  { intros A c sp rest Hc. rewrite (proj2 (proj2 (exec_world _ _ _ _))).
    rewrite !Forall_app. split; [done|]. split; [done|].
    apply commit_calls_ok. }
  destruct ev as [|i text|i e| |i r|uuid now|i reply uuid now|value];
    unfold step.
  - apply Hexec. destruct (guard_set (world s)) eqn:Hg.
    + rewrite prepareEngine_blocked by done. by repeat constructor.
    + rewrite prepareEngine_passes by done. by repeat constructor.
  - destruct (pending s !! i) as [[env| |]|]; try done.
    apply Hexec. unfold initProgressCallback. fields (world s). by eval_M.
  - destruct (pending s !! i) as [[env| |]|]; try done.
    apply Hexec, prepareEngine_settled_calls_ok.
  - apply Hexec. fields (world s). eval_M. by repeat constructor.
  - destruct (pending s !! i) as [[env| |]|]; try done.
    apply Hexec. fields (world s). destruct r as [[]|err]; eval_M;
      by repeat constructor.
  - apply Hexec. unfold sendMsg. fields (world s).
    destruct engine0; eval_M; by repeat constructor.
  - destruct (pending s !! i) as [[env| |]|]; try done.
    apply Hexec. unfold processMsg_settled. fields (world s).
    destruct reply as [[c cs]|err]; eval_M; by repeat constructor.
  - apply Hexec. unfold onChange. fields (world s). by eval_M.
Qed.

(** X12: what reaches the model runtime.  After any events since the load
    of the page, every load request and every purge in the history names the
    model of [App], and every completion request starts with the system
    instruction. *)
Theorem runtime_calls_ok (ls : gmap string Item) (ss : gmap string string)
    (evs : list Event) :
  Forall runtime_call_ok (history (run (page_load ls ss) evs)).
Proof.
  assert (Forall runtime_call_ok (history (page_load ls ss))) as H0.
  { rewrite page_load_world. by repeat constructor. }
  revert H0. generalize (page_load ls ss).
  induction evs as [|ev evs IH]; intros s H0; [done|].
  cbn [run foldl]. by apply IH, step_calls_ok.
Qed.

(** ** Beyond the claims: the header of the chat screen *)

Lemma append_MB_not_empty (x : string) : x +:+ "MB" ≠ "".
Proof. by destruct x. Qed.

Lemma append_MB_not_fallback (x : string) : x +:+ "MB" ≠ "not sure".
Proof.
  intros H.
  do 7 (destruct x as [|? x]; [discriminate|]; cbn in H; injection H as _ H).
  destruct x as [|? x]; [discriminate|]. cbn in H. injection H as _ H.
  by destruct x.
Qed.

(** X13: the fallback of the size in the header is dead.  Whatever the list
    of models and the printing of numbers, the text is what [+ "MB"] gives
    and never ["not sure"]; when the model is not in the list, or has no
    [vram_required_MB], the header shows ["undefinedMB"]. *)
Theorem header_size_never_falls_back (Number : Type)
    (Number_toString : Number → string)
    (model_list : list (ModelRecord Number)) :
  header_size Number Number_toString model_list ≠ "not sure"
  ∧ header_size Number Number_toString model_list
    = match find_model Number model_list ≫= vram_required_MB with
      | Some n => Number_toString n +:+ "MB"
      | None => "undefinedMB"
      end.
Proof.
  unfold header_size, plus_string, or_else.
  destruct (find_model Number model_list ≫= vram_required_MB) as [n|];
    cbn [fmap option_fmap option_map].
  - destruct (decide (Number_toString n +:+ "MB" = "")) as [H|_];
      [by apply append_MB_not_empty in H|].
    split; [apply append_MB_not_fallback | done].
  - done.
Qed.

(** ** Beyond the claims: the earlier [App] *)

Lemma legacy_mountEffect_blocked (env : Render) (w : World) :
  guard_set w = true →
  Legacy.mountEffect env w
  = (None, w, [sessionStorage_getItem loadEngineProgressKey]).
Proof.
  unfold guard_set, Legacy.mountEffect. intros H%bool_decide_eq_true.
  fields w. cbn in H. eval_M. by rewrite H.
Qed.

Lemma legacy_mountEffect_passes (env : Render) (w : World) :
  guard_set w = false →
  Legacy.mountEffect env w
  = (Some (prepareEngine_awaiting env),
     {| cells := cells w; messagesChanged := messagesChanged w;
        localStorage := localStorage w;
        sessionStorage := <[loadEngineProgressKey := "true"]> (sessionStorage w) |},
     [sessionStorage_getItem loadEngineProgressKey;
      sessionStorage_setItem loadEngineProgressKey "true";
      CreateMLCEngine Legacy.modelId]).
Proof.
  unfold guard_set, Legacy.mountEffect. intros H%bool_decide_eq_false.
  fields w. cbn in H. eval_M. by destruct (decide _).
Qed.

(** X14: in the earlier [App] the page starts the load by itself and starts
    it once.  Whatever the storages, the load of the page sends one load
    request and sets the guard; the effect run a second time before the load
    settles, from any render, only reads the guard: it sends no request and
    changes nothing. *)
Theorem legacy_mount_loads_once (ls : gmap string Item)
    (ss : gmap string string) (env : Render) :
  let s := Legacy.page_load ls ss in
  filter is_load_request (history s) = [CreateMLCEngine Legacy.modelId]
  ∧ pending s = [prepareEngine_awaiting Legacy.initial_cells]
  ∧ guard_set (world s) = true
  ∧ localStorage (world s) = ls
  ∧ Legacy.mountEffect env (world s)
    = (None, world s, [sessionStorage_getItem loadEngineProgressKey]).
Proof.
  cbn zeta.
  assert (Legacy.page_load ls ss
          = {| world := {| cells := Legacy.initial_cells;
                           messagesChanged := false;
                           localStorage := ls;
                           sessionStorage :=
                             <[loadEngineProgressKey := "true"]>
                               (delete loadEngineProgressKey ss) |};
               pending := [prepareEngine_awaiting Legacy.initial_cells];
               history := [sessionStorage_removeItem loadEngineProgressKey;
                           sessionStorage_getItem loadEngineProgressKey;
                           sessionStorage_setItem loadEngineProgressKey "true";
                           CreateMLCEngine Legacy.modelId] |}) as ->.
  { unfold Legacy.page_load, bind, sessionStorage_remove. proj.
    rewrite legacy_mountEffect_passes
      by (unfold guard_set; proj; by rewrite lookup_delete_eq).
    by rewrite persistEffect_empty. }
  proj.
  assert (guard_set
            {| cells := Legacy.initial_cells; messagesChanged := false;
               localStorage := ls;
               sessionStorage :=
                 <[loadEngineProgressKey := "true"]>
                   (delete loadEngineProgressKey ss) |} = true) as Hg.
  { unfold guard_set. proj. by rewrite lookup_insert_eq. }
  rewrite (legacy_mountEffect_blocked _ _ Hg). done.
Qed.

(** X15: in the earlier [App] too the guard is removed however the load
    settles, the persisted log is published, and the handle is stored only
    by a fulfilled load; the progress text is left as the last report set
    it. *)
Theorem legacy_load_settles (env : Render) (e : Settled MLCEngine) (w : World) :
  let r := Legacy.mountEffect_settled env e w in
  guard_set (after r) = false
  ∧ engine (cells (after r))
    = match e with Fulfilled e' => Some e' | Rejected _ => engine (cells w) end
  ∧ messages (cells (after r))
    = match load w with Some l => l | None => messages (cells w) end
  ∧ engineLoadingProgress (cells (after r)) = engineLoadingProgress (cells w)
  ∧ localStorage (after r) = localStorage w
  ∧ replay_reads (calls r) = 1%nat.
Proof.
  cbn zeta. unfold Legacy.mountEffect_settled, load, guard_set. fields w.
  destruct env as [[e0|] ? ? ? ?];
    destruct e as [e|err]; eval_M;
    (destruct (JSON_parse_or_empty _) as [l|]; eval_M);
    try (destruct (_ && _); eval_M);
    by rewrite lookup_delete_eq.
Qed.

(** ** Beyond the claims: after a failed load, and what a settled load
       never sends *)

(** X16: a load that fails before any progress report can be tried again.
    The screen shows Start again, and the click passes the guard and sends a
    second load request. *)
Theorem failed_load_without_progress_retries (ls : gmap string Item)
    (ss : gmap string string) (err : string) :
  let s := run (page_load ls ss) [click_Start; load_settles 0 (Rejected err)] in
  on_screen s click_Start = true
  ∧ pending (step s click_Start) = [prepareEngine_awaiting (cells (world s))]
  ∧ filter is_load_request (history (step s click_Start))
    = filter is_load_request (history s) ++ [CreateMLCEngine modelId].
Proof.
  cbn zeta.
  pose proof (page_started ls ss (Rejected err)) as H. cbn zeta in H.
  set (s := run (page_load ls ss) [click_Start; load_settles 0 (Rejected err)])
    in *.
  clearbody s. destruct H as (_ & He & Hp & Hpend & Hg & Hc & _).
  rewrite step_click_Start_passes by done. proj.
  unfold on_screen. rewrite He, Hp, Hpend, filter_app. done.
Qed.

Lemma step_started_without_engine (s : Sys) (ev : Event) :
  Forall started_without_engine (pending s) →
  on_screen s ev = true →
  Forall started_without_engine (pending (step s ev)).
Proof.
  intros Hf Hon.
  assert (∀ r : option Task,
            r = None ∨ r = Some processMsg_awaiting →
            Forall started_without_engine (option_list r)) as Hopt.
  { intros r [-> | ->]; by repeat constructor. }
  destruct ev as [|i text|i e| |i r|uuid now|i reply uuid now|value];
    unfold step;
    try (destruct (pending s !! i) as [[env| |]|]; [| | |done]; try done);
    rewrite (proj1 (proj2 (exec_world _ _ _ _))), Forall_app;
    (split; [first [done | by apply Forall_delete]|]);
    try done.
  - destruct (guard_set (world s)) eqn:Hg.
    + by rewrite prepareEngine_blocked.
    + rewrite prepareEngine_passes by done. apply Forall_singleton.
      unfold on_screen in Hon. cbn [started_without_engine].
      by apply andb_true_iff in Hon as [?%bool_decide_eq_true _].
  - apply Hopt, prepareEngine_settled_result.
  - fields (world s). eval_M. by apply Forall_singleton.
  - apply Hopt. unfold sendMsg. fields (world s).
    destruct engine0; eval_M; auto.
Qed.

(** X17: a settled load never submits a turn.  In every run that the screens
    allow from the load of the page, every load in flight was started from a
    render without an engine, so when it settles, fulfilled or rejected, the
    history gains no completion request and no handler starts to wait for
    one, whatever the persisted log. *)
Theorem settled_load_sends_no_completion (ls : gmap string Item)
    (ss : gmap string string) (evs : list Event) (i : nat)
    (e : Settled MLCEngine) :
  realizable (page_load ls ss) evs = true →
  let s := run (page_load ls ss) evs in
  let s' := step s (load_settles i e) in
  filter is_completion_request (history s')
  = filter is_completion_request (history s)
  ∧ completions_in_flight s' = completions_in_flight s.
Proof.
  intros Hre. cbn zeta.
  assert (Forall started_without_engine (pending (run (page_load ls ss) evs)))
    as Hf.
  { assert (Forall started_without_engine (pending (page_load ls ss))) as H0
      by (by rewrite page_load_world).
    revert H0 Hre. generalize (page_load ls ss). clear.
    induction evs as [|ev evs IH]; intros s H0 Hre; [done|].
    cbn [realizable] in Hre. apply andb_true_iff in Hre as [Hon Hre].
    cbn [run foldl]. apply IH; [|done]. by apply step_started_without_engine. }
  set (s := run (page_load ls ss) evs) in *. clearbody s.
  unfold step, completions_in_flight.
  destruct (pending s !! i) as [[env| |]|] eqn:Hi; try done.
  assert (engine env = None) as He
    by apply (proj1 (Forall_lookup _ _) Hf _ _ Hi).
  rewrite (exec_run _ _ _ _ _ _ _ (prepareEngine_settled_stale _ e _ He)).
  proj. rewrite app_nil_r.
  pose proof (completions_delete _ _ _ Hi) as Hd. cbn [is_completion] in Hd.
  split; [|lia].
  rewrite !filter_app.
  assert (filter is_completion_request (calls (commit
            (after (prepareEngine_settled env e (world s))))) = []) as Hcommit.
  { destruct (messagesChanged (after (prepareEngine_settled env e (world s))))
      eqn:Hc.
    - destruct (decide (messages (cells
        (after (prepareEngine_settled env e (world s)))) = [])) as [Hm|Hm].
      + by rewrite commit_changed_empty.
      + by rewrite commit_changed_nonempty.
    - by rewrite commit_clean. }
  rewrite (prepareEngine_settled_stale _ e _ He) in Hcommit.
  unfold after in Hcommit at 1. cbn [fst snd] in Hcommit.
  rewrite Hcommit. destruct e; cbn; by rewrite !app_nil_r.
Qed.

Lemma settled_load_sends_no_completion_witness :
  realizable (page_load {[ messagesRepoKey := Stringified [hi] ]} ∅)
    [click_Start; progress_report 0 "Loading model from cache[1/24]"] = true
  ∧ filter is_completion_request
      (history (step (run (page_load {[ messagesRepoKey := Stringified [hi] ]} ∅)
                        [click_Start;
                         progress_report 0 "Loading model from cache[1/24]"])
                     (load_settles 0 (Fulfilled 1))))
    = filter is_completion_request
        (history (run (page_load {[ messagesRepoKey := Stringified [hi] ]} ∅)
                    [click_Start;
                     progress_report 0 "Loading model from cache[1/24]"])).
Proof.
  split; [vm_compute; reflexivity|].
  apply (settled_load_sends_no_completion
           {[ messagesRepoKey := Stringified [hi] ]} ∅
           [click_Start; progress_report 0 "Loading model from cache[1/24]"]
           0 (Fulfilled 1)).
  vm_compute. reflexivity.
Defined.
